(** * InjectManifest (workbox-webpack-plugin): a shallow embedding

    Source: packages/workbox-webpack-plugin/src/inject-manifest.ts

    The plugin class [InjectManifest] is embedded as state-passing code over
    - the module-level set [_generatedAssetNames],
    - a store of JavaScript arrays (the [exclude] list of a configuration is
      an array reached through a reference, so that the aliasing created by
      [Object.assign({}, this.config)] is visible),
    - the instance fields [config] and [alreadyCalled],
    - the webpack compilation handed to each hook.

    JavaScript strings are lists of code units, here [list ascii]; asset
    names and file paths, which are only compared and used as keys, are
    [string].  An [async] method is its body run in order: a rejected
    promise is a thrown value.

    The functions the file imports ([validateWebpackInjectManifestOptions],
    [relativeToOutputPath], [getManifestEntriesFromCompilation],
    [getSourcemapAssetName], [replaceAndUpdateSourceMap], [upath.resolve])
    webpack's [runAsChild] and whether webpack is a version 4 are variables
    of the section that holds the methods; [escapeRegExp] is written out.
    Left out: the registration of the hooks in [apply] (only its [catch]
    wrappers are kept), the diagnostics that webpack or the manifest entry
    source add on their own, save the conflict that [emitAsset] reports,
    and the wording of the logger line.  [propagateWebpackConfig] works on
    the configuration as the user wrote it, [UserConfig]. *)

From Stdlib Require Import Ascii String.
From stdpp Require Import base option list gmap strings fin_maps relations.

Set Default Proof Using "Type".
Local Open Scope list_scope.

(** ** JavaScript strings *)

Abbreviation text := (list ascii).

Definition str (s : string) : text := list_ascii_of_string s.

Module Text.

(** [s.startsWith(p)] *)
Fixpoint startsWith (p s : text) : bool :=
  match p, s with
  | [], _ => true
  | _ :: _, [] => false
  | a :: p', b :: s' => Ascii.eqb a b && startsWith p' s'
  end.

(** [s.indexOf(p)]: the first index at which [p] starts, if any. *)
Fixpoint indexOf (p s : text) : option nat :=
  if startsWith p s then Some 0
  else match s with
       | [] => None
       | _ :: s' => S <$> indexOf p s'
       end.

(** [p] starts at index [i] of [s]. *)
Definition occursAt (p s : text) (i : nat) : Prop :=
  i ≤ length s ∧ startsWith p (drop i s) = true.

(** Distance between the starts of two successive matches of a global
    regular expression for the literal [p]: the length of the match, or
    one code unit after an empty match (AdvanceStringIndex). *)
Definition stride (p : text) : nat := Nat.max 1 (length p).

(** *** [String.prototype.match] with a global regular expression

    For a global expression whose pattern denotes the literal [p],
    [s.match(re)] collects the successive matches from left to right: after
    a match at index [i] the search resumes at [i + length p], or at
    [i + 1] when the match is empty.  [skip] counts the code units still
    to be passed over before the next index at which a match may start. *)
Fixpoint matchesFrom (p : text) (skip : nat) (s : text) {struct s} : list text :=
  match skip with
  | S k => match s with
           | [] => []
           | _ :: s' => matchesFrom p k s'
           end
  | 0 => if startsWith p s
         then p :: match s with
                   | [] => []
                   | _ :: s' => matchesFrom p (length p - 1) s'
                   end
         else match s with
              | [] => []
              | _ :: s' => matchesFrom p 0 s'
              end
  end.

(** *** [String.prototype.replace] with a string pattern

    The replacement is a template: GetSubstitution expands the dollar
    patterns.  A string pattern has no capture groups, so a dollar followed
    by a digit or by [<] stands for itself. *)
Fixpoint getSubstitution (matched before after tpl : text) : text :=
  match tpl with
  | [] => []
  | c :: r =>
      if Ascii.eqb c "$" then
        match r with
        | [] => [c]
        | d :: r' =>
            if Ascii.eqb d "$" then "$"%char :: getSubstitution matched before after r'
            else if Ascii.eqb d "&" then matched ++ getSubstitution matched before after r'
            else if Ascii.eqb d "`" then before ++ getSubstitution matched before after r'
            else if Ascii.eqb d "'" then after ++ getSubstitution matched before after r'
            else c :: getSubstitution matched before after r
        end
      else c :: getSubstitution matched before after r
  end.

(** [s.replace(pat, tpl)] for strings [pat] and [tpl]: only the first
    occurrence of [pat] is replaced. *)
Definition replace (s pat tpl : text) : text :=
  match indexOf pat s with
  | None => s
  | Some i =>
      let before := take i s in
      let after := drop (i + length pat) s in
      before ++ getSubstitution pat before after tpl ++ after
  end.

(** [s.replace(/c/g, d)] for single code units [c] and [d] ([d] not a
    dollar sign). *)
Definition replaceAllChar (c d : ascii) (s : text) : text :=
  (λ x, if Ascii.eqb x c then d else x) <$> s.

End Text.

(** ** Regular expressions built from an escaped literal *)

Module RegExp.

(** SyntaxCharacter of the pattern grammar. *)
Definition syntaxCharacters : text := str "^$\.*+?()[]{}|".

Definition isSyntaxCharacter (c : ascii) : bool :=
  existsb (Ascii.eqb c) syntaxCharacters.

(** Modelled from the spec: [escapeRegExp] of workbox-build's
    lib/escape-regexp, imported by inject-manifest.ts and not part of the
    sources at hand.  "Any characters with special meaning in a pattern
    language must be escaped before searching": a backslash is put in front
    of every syntax character, other code units are kept. *)
Definition escapeRegExp (s : text) : text :=
  s ≫= λ c, if isSyntaxCharacter c then ["\"%char; c] else [c].

(** [new RegExp(source, 'g')] *)
Record t := RegExp { source : text; global : bool }.

(** The literal denoted by a pattern made only of pattern characters and
    of identity escapes of syntax characters; [None] for every other
    pattern (alternation, classes, quantifiers, ...), which this
    development does not interpret. *)
Fixpoint literalOfPattern (src : text) : option text :=
  match src with
  | [] => Some []
  | c :: r =>
      if Ascii.eqb c "\" then
        match r with
        | [] => None
        | d :: r' =>
            if isSyntaxCharacter d then cons d <$> literalOfPattern r' else None
        end
      else if isSyntaxCharacter c then None
      else cons c <$> literalOfPattern r
  end.

(** [s.match(re)] for a global [re]: the array of all matches, [null]
    ([None]) when there is none.  The outer option is [None] exactly for
    the patterns outside the interpreted fragment. *)
Definition match_ (s : text) (re : t) : option (option (list text)) :=
  p ← literalOfPattern (source re);
  Some (match Text.matchesFrom p 0 s with
        | [] => None
        | ms => Some ms
        end).

End RegExp.

(** ** Serialisation of the manifest *)

Module JSON.

Definition dquote : ascii := Ascii false true false false false true false false.
Definition squote : ascii := "'"%char.

Definition hexDigit (n : nat) : ascii := nth n (str "0123456789abcdef") "0"%char.

(** QuoteJSONString on one code unit (code units are 8 bits wide here, so
    no surrogate arises). *)
Definition quoteChar (c : ascii) : text :=
  if Ascii.eqb c dquote then ["\"%char; dquote]
  else if Ascii.eqb c "\" then ["\"%char; "\"%char]
  else
    let n := nat_of_ascii c in
    if n =? 8 then str "\b"
    else if n =? 9 then str "\t"
    else if n =? 10 then str "\n"
    else if n =? 12 then str "\f"
    else if n =? 13 then str "\r"
    else if n <? 32 then str "\u00" ++ [hexDigit (n / 16); hexDigit (n mod 16)]
    else [c].

(** [JSON.stringify(s)] for a string [s]. *)
Definition quote (s : text) : text := dquote :: (s ≫= quoteChar) ++ [dquote].

(** [parts.join(sep)] *)
Fixpoint join (sep : text) (parts : list text) : text :=
  match parts with
  | [] => []
  | [x] => x
  | x :: rest => x ++ sep ++ join sep rest
  end.

End JSON.

(** A manifest entry as [getManifestEntriesFromCompilation] returns it:
    [{integrity?: string, revision: string | null, url: string}]. *)
Record ManifestEntry := {
  integrity : option text;   (* [None]: property absent *)
  revision : option text;    (* [None]: [null] *)
  url : text
}.

(** [stringify] of fast-json-stable-stringify, on an array of manifest
    entries: keys in sorted order, absent properties left out, no white
    space. *)
Definition stringifyMember (key : string) (value : text) : text :=
  JSON.quote (str key) ++ str ":" ++ value.

Definition stringifyEntry (e : ManifestEntry) : text :=
  str "{" ++
  JSON.join (str ",")
    (match integrity e with
     | Some i => [stringifyMember "integrity" (JSON.quote i)]
     | None => []
     end ++
     [stringifyMember "revision"
        (match revision e with Some r => JSON.quote r | None => str "null" end);
      stringifyMember "url" (JSON.quote (url e))]) ++
  str "}".

Definition stringify (entries : list ManifestEntry) : text :=
  str "[" ++ JSON.join (str ",") (stringifyEntry <$> entries) ++ str "]".

(** ** Data of the plugin and of webpack *)

(** Values found in [compilation.warnings] and [compilation.errors], and
    values a promise is rejected with. *)
Inductive JsError :=
| Error (message : text)        (* [new Error(m)], [new webpack.WebpackError(m)] *)
| TypeError (subject : string)  (* a property read on [undefined] *)
| NotAnError (payload : text)   (* a value that is not an instance of [Error] *)
| Uninterpreted.                (* a pattern outside [RegExp.literalOfPattern] *)

(** [w instanceof Error && w.message === m] *)
Definition isErrorWithMessage (m : text) (w : JsError) : bool :=
  match w with
  | Error m' => bool_decide (m' = m)
  | _ => false
  end.

Abbreviation loc := positive.
Abbreviation Registry := (gset string).

(** What a function of [config.exclude] may be handed for an asset: the
    name of the asset, a string, or an object that describes the asset. *)
Inductive Argument :=
| ArgString (name : string)
| ArgObject (assetName : string).

(** An element of [config.exclude]: a string, a regular expression (given by
    its test), or a function.  A function is a closure and may read the
    module-level registry at the time it is called. *)
Inductive Condition :=
| CondString (s : string)
| CondRegExp (test : string → bool)
| CondFunction (f : Registry → Argument → bool).

(** What a condition answers for an asset whose name is put to it. *)
Definition holds (registry : Registry) (c : Condition) (name : string) : bool :=
  match c with
  | CondString s => bool_decide (s = name)
  | CondRegExp test => test name
  | CondFunction f => f registry (ArgString name)
  end.

(** What a condition answers for an asset when its functions are handed
    the object of the asset instead of the name. *)
Definition holdsForObject (registry : Registry) (c : Condition) (name : string) : bool :=
  match c with
  | CondString s => bool_decide (s = name)
  | CondRegExp test => test name
  | CondFunction f => f registry (ArgObject name)
  end.

(** [(name) => _generatedAssetNames.has(name)].  The registry is a [Set]
    of strings: [has] answers [false] for every value that is not one of
    them, an object among these. *)
Definition isGenerated : Condition :=
  CondFunction (λ registry argument,
    match argument with
    | ArgString name => bool_decide (name ∈ registry)
    | ArgObject _ => false
    end).

(** A webpack plugin handed to the child compiler; only its identity
    matters here. *)
Definition Plugin := string.

(** [this.config] once [propagateWebpackConfig] has filled in [swDest]. *)
Record Config := {
  swSrc : string;
  swDest : string;
  injectionPoint : option text;
  compileSrc : bool;
  exclude : option loc;                             (* reference to an array *)
  webpackCompilationPlugins : option (list Plugin); (* [None]: not an array *)
  mode : option string
}.

Definition with_swDest (d : string) (c : Config) : Config :=
  {| swSrc := swSrc c; swDest := d; injectionPoint := injectionPoint c;
     compileSrc := compileSrc c; exclude := exclude c;
     webpackCompilationPlugins := webpackCompilationPlugins c; mode := mode c |}.

Record Optimization := { minimize : bool }.
Record Options := { devtool : option string; optimization : option Optimization }.

Record Compilation := {
  warnings : list JsError;
  errors : list JsError;
  assets : gmap string text;       (* name ↦ [source.source().toString()] *)
  fileDependencies : gset string;
  options : option Options;
  getLogger : bool;                (* is [compilation.getLogger] defined *)
  infoLog : list (string * nat * nat)
}.

Definition with_warnings (w : list JsError) (c : Compilation) : Compilation :=
  {| warnings := w; errors := errors c; assets := assets c;
     fileDependencies := fileDependencies c; options := options c;
     getLogger := getLogger c; infoLog := infoLog c |}.

Definition with_errors (e : list JsError) (c : Compilation) : Compilation :=
  {| warnings := warnings c; errors := e; assets := assets c;
     fileDependencies := fileDependencies c; options := options c;
     getLogger := getLogger c; infoLog := infoLog c |}.

Definition with_assets (a : gmap string text) (c : Compilation) : Compilation :=
  {| warnings := warnings c; errors := errors c; assets := a;
     fileDependencies := fileDependencies c; options := options c;
     getLogger := getLogger c; infoLog := infoLog c |}.

Definition with_fileDependencies (d : gset string) (c : Compilation) : Compilation :=
  {| warnings := warnings c; errors := errors c; assets := assets c;
     fileDependencies := d; options := options c;
     getLogger := getLogger c; infoLog := infoLog c |}.

Definition with_infoLog (l : list (string * nat * nat)) (c : Compilation) : Compilation :=
  {| warnings := warnings c; errors := errors c; assets := assets c;
     fileDependencies := fileDependencies c; options := options c;
     getLogger := getLogger c; infoLog := l |}.

(** The parent compiler, as far as the plugin reads it. *)
Record Compiler := {
  context : string;
  outputPath : option string;
  inputFileSystem : gmap string text   (* path ↦ bytes of the file *)
}.

(** The child compiler assembled by [performChildCompilation]. *)
Record ChildCompiler := {
  childName : string;
  childOutputPath : option string;
  childFilename : string;
  childContext : string;
  childInputFileSystem : gmap string text;
  childPlugins : list Plugin;
  childEntry : string
}.

Record ChildCompilation := {
  childWarnings : list JsError;
  childErrors : list JsError
}.

(** What [runAsChild] hands to its callback: an error, or the child
    compilation (possibly [undefined]); by then webpack has put the assets
    the child emitted into the parent compilation. *)
Inductive ChildOutcome :=
| ChildFailed (error : JsError)
| ChildDone (emitted : gmap string text) (childCompilation : option ChildCompilation).

(** One call of [getManifestEntriesFromCompilation], as the callee sees it:
    the configuration object, the content of its [exclude] array and the
    registry its closures read. *)
Record ManifestCall := {
  callConfig : Config;
  callExclude : list Condition;
  callRegistry : Registry
}.

(** Module-level state: [_generatedAssetNames], the arrays in the heap, and
    the calls made so far to the manifest entry source. *)
Record World := {
  generatedAssetNames : Registry;
  arrays : gmap loc (list Condition);
  manifestCalls : list ManifestCall
}.

(** The fields of an instance of the class. *)
Record InjectManifest := {
  config : Config;
  alreadyCalled : bool
}.

(** [new InjectManifest(config)] *)
Definition constructor (c : Config) : InjectManifest :=
  {| config := c; alreadyCalled := false |}.

(** ** A state and exception monad for method bodies

    A method runs on the module state, on [this] and on the compilation it
    was handed.  What it wrote before throwing stays written. *)
Record State := {
  world : World;
  self : InjectManifest;
  compilation : Compilation
}.

Inductive Outcome (A : Type) :=
| Returned (a : A)
| Threw (e : JsError).
Arguments Returned {A} a.
Arguments Threw {A} e.

Definition M (A : Type) : Type := State → Outcome A * State.

Definition ret {A} (a : A) : M A := λ st, (Returned a, st).
Definition throw {A} (e : JsError) : M A := λ st, (Threw e, st).
Definition bind {A B} (m : M A) (k : A → M B) : M B :=
  λ st, match m st with
        | (Returned a, st') => k a st'
        | (Threw e, st') => (Threw e, st')
        end.
Definition gets {A} (f : State → A) : M A := λ st, (Returned (f st), st).
Definition modify (f : State → State) : M unit := λ st, (Returned tt, f st).

Notation "'let!' x ':=' m 'in' k" := (bind m (λ x, k))
  (at level 10, x pattern, m at level 100, k at level 200).
Notation "m ';;' k" := (bind m (λ _, k))
  (at level 100, k at level 200, right associativity).

Definition onWorld (f : World → World) : M unit :=
  modify (λ st, {| world := f (world st); self := self st; compilation := compilation st |}).
Definition onSelf (f : InjectManifest → InjectManifest) : M unit :=
  modify (λ st, {| world := world st; self := f (self st); compilation := compilation st |}).
Definition onCompilation (f : Compilation → Compilation) : M unit :=
  modify (λ st, {| world := world st; self := self st; compilation := f (compilation st) |}).

(** [this.config] *)
Definition thisConfig : M Config := gets (λ st, config (self st)).

(** Unwrapping a value that the code asserts to be defined ([x!.p]). *)
Definition defined {A} (subject : string) (o : option A) : M A :=
  match o with
  | Some a => ret a
  | None => throw (TypeError subject)
  end.

(** ** Operations on the module state and on the compilation *)

(** [_generatedAssetNames.add(name)] *)
Definition registryAdd (name : string) : M unit :=
  onWorld (λ w, {| generatedAssetNames := {[name]} ∪ generatedAssetNames w;
                   arrays := arrays w; manifestCalls := manifestCalls w |}).

(** [array.push(c)] on the array behind a reference; [undefined.push]
    throws. *)
Definition arrayPush (subject : string) (ref : option loc) (c : Condition) : M unit :=
  let! l := defined subject ref in
  onWorld (λ w, {| generatedAssetNames := generatedAssetNames w;
                   arrays := <[l := default [] (arrays w !! l) ++ [c]]> (arrays w);
                   manifestCalls := manifestCalls w |}).

(** The content of the array behind a reference. *)
Definition arrayContent (w : World) (ref : option loc) : list Condition :=
  default [] (l ← ref; arrays w !! l).

(** [compilation.warnings.push(w)] *)
Definition pushWarning (w : JsError) : M unit :=
  onCompilation (λ c, with_warnings (warnings c ++ [w]) c).

(** [compilation.getAsset(name)] *)
Definition getAsset (name : string) : M (option text) :=
  gets (λ st, assets (compilation st) !! name).

(** The message of webpack's diagnostic for an asset emitted twice. *)
Definition conflictMessage (name : string) : text :=
  str "Conflict: Multiple assets emit different content to the same filename "
  ++ str name.

(** [compilation.emitAsset(name, new RawSource(content))].  When the name
    already holds other content webpack reports the conflict, among the
    errors (webpack 5) or among the warnings (webpack 4), and the new
    content takes the place of the old one. *)
Definition emitAsset (webpack4 : bool) (name : string) (content : text) : M unit :=
  let! old := getAsset name in
  match old with
  | Some previous =>
      if bool_decide (previous = content) then ret tt
      else if webpack4 then pushWarning (Error (conflictMessage name))
      else onCompilation (λ c, with_errors (errors c ++ [Error (conflictMessage name)]) c)
  | None => ret tt
  end ;;
  onCompilation (λ c, with_assets (<[name := content]> (assets c)) c).

(** [compilation.updateAsset(name, new RawSource(content))]: webpack throws
    when no asset of that name exists. *)
Definition updateAsset (name : string) (content : text) : M unit :=
  let! old := getAsset name in
  match old with
  | None => throw (Error (str "Called Compilation.updateAsset for not existing filename " ++ str name))
  | Some _ => onCompilation (λ c, with_assets (<[name := content]> (assets c)) c)
  end.

(** [fs.readFileSync(path)] *)
Definition readFileSync (fs : gmap string text) (path : string) : M text :=
  match fs !! path with
  | Some bytes => ret bytes
  | None => throw (Error (str "ENOENT: no such file or directory, open '" ++ str path ++ str "'"))
  end.

(** [this.constructor.name] *)
Definition className : text := str "InjectManifest".

(** The messages of the file. *)
Definition calledTwiceMessage : text :=
  className ++ str " has been called " ++
  str "multiple times, perhaps due to running webpack in --watch mode. The " ++
  str "precache manifest generated after the first call may be inaccurate! " ++
  str "Please see https://github.com/GoogleChrome/workbox/issues/1790 for " ++
  str "more information.".

Definition ignoredPluginsMessage : text :=
  str "compileSrc is false, so the " ++
  str "webpackCompilationPlugins option will be ignored.".

Definition notFoundMessage (injectionPoint : text) : text :=
  str "Can't find " ++ injectionPoint ++ str " in your SW source.".

Definition multipleMessage (injectionPoint : text) : text :=
  str "Multiple instances of " ++ injectionPoint ++ str " were " ++
  str "found in your SW source. Include it only once. For more info, see " ++
  str "https://github.com/GoogleChrome/workbox/issues/2681".

Definition checkConfigurationMessage (reason : text) : text :=
  str "Please check your " ++ className ++ str " plugin " ++
  str "configuration:" ++ [ascii_of_nat 10] ++ reason.

(** ** The pieces of [addAssets] that do not touch the state *)

(** Lines 357-371: the array of matches of the escaped injection point must
    have exactly one element. *)
Definition checkInjectionPoint (injectionPoint swAssetString : text) : Outcome unit :=
  let globalRegexp := RegExp.RegExp (RegExp.escapeRegExp injectionPoint) true in
  match RegExp.match_ swAssetString globalRegexp with
  | None => Threw Uninterpreted
  | Some None => Threw (Error (notFoundMessage injectionPoint))
  | Some (Some injectionResults) =>
      if bool_decide (length injectionResults ≠ 1)
      then Threw (Error (multipleMessage injectionPoint))
      else Returned tt
  end.

(** Lines 383-388: the devtool and minimize combination of issue 2729. *)
Definition evalCheapSourceMapAndMinimize (o : option Options) : bool :=
  match o with
  | None => false
  | Some opts =>
      bool_decide (devtool opts = Some "eval-cheap-source-map"%string) &&
      match optimization opts with
      | None => false
      | Some opt => minimize opt
      end
  end.

(** Lines 378-392: the manifest string. *)
Definition serializeManifest (compileSrc : bool) (o : option Options)
    (sortedEntries : list ManifestEntry) : text :=
  let manifestString := stringify sortedEntries in
  if compileSrc && negb (evalCheapSourceMapAndMinimize o)
  then Text.replaceAllChar JSON.dquote JSON.squote manifestString
  else manifestString.

(** Lines 418-423: the replacement when there is no source map. *)
Definition injectWithoutSourceMap (swAssetString injectionPoint manifestString : text) : text :=
  Text.replace swAssetString injectionPoint manifestString.

(** ** The methods of the class *)

Section InjectManifest.

(** Collaborators imported by the file. *)

(** workbox-build's validation: a fresh configuration object with the
    defaults filled in (it may allocate arrays), or a validation
    message. *)
Variable validateWebpackInjectManifestOptions :
  Config → gmap loc (list Condition) → text + Config * gmap loc (list Condition).
Variable relativeToOutputPath : Compilation → string → string.
Variable runAsChild : ChildCompiler → Compilation → ChildOutcome.
(** [webpack.version?.startsWith('4.')] (line 173): the webpack that runs
    the plugin is a version 4. *)
Variable webpack4 : bool.
Variable getManifestEntriesFromCompilation :
  Compilation → ManifestCall → JsError + nat * list ManifestEntry.
Variable getSourcemapAssetName : Compilation → text → string → option string.
(** [replaceAndUpdateSourceMap], fed with the text of the source map
    asset: the parsing of that text is part of it. *)
Variable replaceAndUpdateSourceMap :
  string → text → text → text → text → JsError + text * text.
Variable upath_resolve : string → string.

(** Lines 215-239: the child compiler, with the file systems and the
    context of the parent, the configured plugins applied, and [swSrc] as
    its single entry. *)
Definition makeChildCompiler (cfg : Config) (parentCompiler : Compiler) : ChildCompiler :=
  {| childName := string_of_list_ascii className;
     childOutputPath := outputPath parentCompiler;
     childFilename := swDest cfg;
     childContext := context parentCompiler;
     childInputFileSystem := inputFileSystem parentCompiler;
     childPlugins := default [] (webpackCompilationPlugins cfg);
     childEntry := swSrc cfg |}.

(** Lines 211-257. *)
Definition performChildCompilation (parentCompiler : Compiler) : M unit :=
  let! cfg := thisConfig in
  let childCompiler := makeChildCompiler cfg parentCompiler in
  let! c := gets compilation in
  match runAsChild childCompiler c with
  | ChildFailed error => throw error
  | ChildDone emitted childCompilation =>
      onCompilation (with_assets (emitted ∪ assets c)) ;;
      onCompilation (λ c, with_warnings
        (warnings c ++ default [] (childWarnings <$> childCompilation)) c) ;;
      onCompilation (λ c, with_errors
        (errors c ++ default [] (childErrors <$> childCompilation)) c)
  end.

(** Lines 265-271. *)
Definition addSrcToAssets (parentCompiler : Compiler) : M unit :=
  let! cfg := thisConfig in
  let! source := readFileSync (inputFileSystem parentCompiler) (swSrc cfg) in
  emitAsset webpack4 (swDest cfg) source.

(** Lines 279-315. *)
Definition handleMake (parentCompiler : Compiler) : M unit :=
  let! cfg := thisConfig in
  let! heap := gets (λ st, arrays (world st)) in
  match validateWebpackInjectManifestOptions cfg heap with
  | inl reason => throw (Error (checkConfigurationMessage reason))
  | inr (validated, heap') =>
      onWorld (λ w, {| generatedAssetNames := generatedAssetNames w;
                       arrays := heap'; manifestCalls := manifestCalls w |}) ;;
      onSelf (λ i, {| config := validated; alreadyCalled := alreadyCalled i |}) ;;
      let! c := gets compilation in
      let dest := relativeToOutputPath c (swDest validated) in
      onSelf (λ i, {| config := with_swDest dest (config i);
                      alreadyCalled := alreadyCalled i |}) ;;
      registryAdd dest ;;
      if compileSrc validated then performChildCompilation parentCompiler
      else
        addSrcToAssets parentCompiler ;;
        match webpackCompilationPlugins validated with
        | Some (_ :: _) => pushWarning (Error ignoredPluginsMessage)
        | _ => ret tt
        end
  end.

(** Lines 324-342: the guard on repeated calls. *)
Definition noteInvocation : M unit :=
  let! called := gets (λ st, alreadyCalled (self st)) in
  if called then
    let warningMessage := calledTwiceMessage in
    let! ws := gets (λ st, warnings (compilation st)) in
    if negb (existsb (isErrorWithMessage warningMessage) ws)
    then pushWarning (Error warningMessage)
    else ret tt
  else onSelf (λ i, {| config := config i; alreadyCalled := true |}).

(** The call of the manifest entry source, recorded in [manifestCalls]. *)
Definition computeManifestEntries (cfg : Config) : M (nat * list ManifestEntry) :=
  let! w := gets world in
  let! c := gets compilation in
  let call := {| callConfig := cfg; callExclude := arrayContent w (exclude cfg);
                 callRegistry := generatedAssetNames w |} in
  onWorld (λ w, {| generatedAssetNames := generatedAssetNames w; arrays := arrays w;
                   manifestCalls := manifestCalls w ++ [call] |}) ;;
  match getManifestEntriesFromCompilation c call with
  | inl e => throw e
  | inr r => ret r
  end.

(** A name that passes [if (sourcemapAssetName)]. *)
Definition truthy (name : option string) : option string :=
  match name with
  | Some n => if bool_decide (n = ""%string) then None else Some n
  | None => None
  end.

(** Lines 344-371: the copy of the configuration, the registry predicate,
    the watched file, and the check of the injection point in the text of
    the [swDest] asset. *)
Definition locateInjectionPoint : M (Config * text * text) :=
  (* [Object.assign({}, this.config)]: a new object whose properties hold
     the same values, the reference to the [exclude] array among them *)
  let! config := thisConfig in
  arrayPush "config.exclude" (exclude config) isGenerated ;;
  let! this_config := thisConfig in
  let absoluteSwSrc := upath_resolve (swSrc this_config) in
  onCompilation (λ c, with_fileDependencies ({[absoluteSwSrc]} ∪ fileDependencies c) c) ;;
  let! swAsset := getAsset (swDest config) in
  let! swAssetString := defined "swAsset" swAsset in
  let! injectionPoint := defined "config.injectionPoint" (injectionPoint config) in
  (λ st, (checkInjectionPoint injectionPoint swAssetString, st)) ;;
  ret (config, swAssetString, injectionPoint).

(** Lines 378-431: serialisation, replacement and logging. *)
Definition injectManifest (config : Config) (swAssetString injectionPoint : text)
    (size : nat) (sortedEntries : list ManifestEntry) : M unit :=
  let! this_config := thisConfig in
  let! c := gets compilation in
  let manifestString :=
    serializeManifest (compileSrc this_config) (options c) sortedEntries in
  let sourcemapAssetName := getSourcemapAssetName c swAssetString (swDest config) in
  match truthy sourcemapAssetName with
  | Some sourcemapAssetName =>
      registryAdd sourcemapAssetName ;;
      let! sourcemapAsset := getAsset sourcemapAssetName in
      let! originalMap := defined "sourcemapAsset" sourcemapAsset in
      match replaceAndUpdateSourceMap (swDest config) originalMap swAssetString
              manifestString injectionPoint with
      | inl e => throw e
      | inr (source, map) =>
          updateAsset sourcemapAssetName map ;;
          updateAsset (swDest config) source
      end
  | None =>
      updateAsset (swDest config)
        (injectWithoutSourceMap swAssetString injectionPoint manifestString)
  end ;;
  let! c := gets compilation in
  if getLogger c
  then onCompilation (with_infoLog (infoLog c ++ [(swDest config, length sortedEntries, size)]))
  else ret tt.

(** Lines 322-431. *)
Definition addAssets : M unit :=
  noteInvocation ;;
  let! (config, swAssetString, injectionPoint) := locateInjectionPoint in
  let! (size, sortedEntries) := computeManifestEntries config in
  injectManifest config swAssetString injectionPoint size sortedEntries.

(** The wrappers installed by [apply]: a rejection of the method ends up
    in [compilation.errors]. *)
Definition catchIntoErrors (m : M unit) : M unit :=
  λ st, match m st with
        | (Returned tt, st') => (Returned tt, st')
        | (Threw e, st') =>
            onCompilation (λ c, with_errors (errors c ++ [e]) c) st'
        end.

Definition makeHook (parentCompiler : Compiler) : M unit :=
  catchIntoErrors (handleMake parentCompiler).

Definition processAssetsHook : M unit := catchIntoErrors addAssets.

(** One step of the process: some instance runs [handleMake] or
    [addAssets] on some compilation. *)
Inductive step : World → World → Prop :=
| step_make parentCompiler instance c w :
    step w (world (handleMake parentCompiler
                     {| world := w; self := instance; compilation := c |}).2)
| step_add instance c w :
    step w (world (addAssets {| world := w; self := instance; compilation := c |}).2).

End InjectManifest.

(** ** A concrete build

    Collaborators simple enough to run: validation accepts every
    configuration as it is, the destination name is already relative, the
    child compiler emits the entry file unchanged and reports what its
    [report] argument holds, the manifest lists the assets that no [exclude]
    condition holds for, and no asset has a source map unless
    [sourcemapOf] names one. *)
Module Build.

Definition validate (c : Config) (heap : gmap loc (list Condition))
  : text + Config * gmap loc (list Condition) := inr (c, heap).

Definition relative (c : Compilation) (dest : string) : string := dest.

Definition runChild (report : ChildCompilation) (cc : ChildCompiler) (c : Compilation)
  : ChildOutcome :=
  match childInputFileSystem cc !! childEntry cc with
  | Some bytes => ChildDone {[childFilename cc := bytes]} (Some report)
  | None => ChildFailed (Error (str "entry not found"))
  end.

Definition entryFor (name : string) : ManifestEntry :=
  {| integrity := None; revision := None; url := str name |}.

Definition manifestOf (c : Compilation) (call : ManifestCall)
  : JsError + nat * list ManifestEntry :=
  let excluded name :=
    existsb (λ cond, holds (callRegistry call) cond name) (callExclude call) in
  let names := filter (λ name, excluded name = false) (elements (dom (assets c))) in
  inr (length names, entryFor <$> names).

(** The same, but with the functions of [exclude] handed the object of
    the asset instead of its name. *)
Definition manifestOfObjects (c : Compilation) (call : ManifestCall)
  : JsError + nat * list ManifestEntry :=
  let excluded name :=
    existsb (λ cond, holdsForObject (callRegistry call) cond name) (callExclude call) in
  let names := filter (λ name, excluded name = false) (elements (dom (assets c))) in
  inr (length names, entryFor <$> names).

Definition sourcemapOf (name : option string) (c : Compilation) (swAssetString : text)
    (swDest : string) : option string := name.

Definition replaceWithMap (jsFilename : string)
    (originalMap originalSource replaceString searchString : text)
  : JsError + text * text :=
  match Text.indexOf searchString originalSource with
  | Some i =>
      inr (take i originalSource ++ replaceString ++
             drop (i + length searchString) originalSource, originalMap)
  | None => inr (originalSource, originalMap)
  end.

Definition resolve (path : string) : string := path.

Definition report0 : ChildCompilation := {| childWarnings := []; childErrors := [] |}.

Definition handleMake report :=
  handleMake validate relative (runChild report) false.
Definition addAssets sourcemap :=
  addAssets manifestOf (sourcemapOf sourcemap) replaceWithMap resolve.

Definition config0 : Config :=
  {| swSrc := "src/sw.js"; swDest := "sw.js";
     injectionPoint := Some (str "self.__WB_MANIFEST");
     compileSrc := true; exclude := Some 1%positive;
     webpackCompilationPlugins := None; mode := None |}.

Definition world0 : World :=
  {| generatedAssetNames := ∅; arrays := {[1%positive := []]}; manifestCalls := [] |}.

Definition compilation0 (assets : gmap string text) : Compilation :=
  {| warnings := []; errors := []; assets := assets; fileDependencies := ∅;
     options := None; getLogger := false; infoLog := [] |}.

Definition compiler0 (swSource : text) : Compiler :=
  {| context := "/project"; outputPath := Some "/project/dist"%string;
     inputFileSystem := {["src/sw.js"%string := swSource]} |}.

Definition start (cfg : Config) (assets : gmap string text) : State :=
  {| world := world0; self := constructor cfg; compilation := compilation0 assets |}.

End Build.

(** ** Notions used to state the properties *)

(** The occurrences of [p] in [s], each given by the index at which it
    starts. *)
Definition startIndices (p s : text) : list nat :=
  filter (λ i, Text.startsWith p (drop i s) = true) (seq 0 (S (length s))).

(** [p] starts nowhere in [s]. *)
Definition noOccurrence (p s : text) : Prop :=
  ∀ i, ¬ Text.occursAt p s i.

(** Two occurrences of [p] in [s] that do not overlap: the second starts
    where the first has ended, or later (one code unit after its start, or
    later, when [p] is empty). *)
Definition twoDisjointOccurrences (p s : text) : Prop :=
  ∃ i j, Text.occursAt p s i ∧ Text.occursAt p s j ∧ i + Text.stride p ≤ j.

(** [p] occurs in [s], and any two of its occurrences overlap. *)
Definition oneDisjointOccurrence (p s : text) : Prop :=
  (∃ i, Text.occursAt p s i) ∧ ¬ twoDisjointOccurrences p s.

(** What [emitAsset] reports when it writes [content] to [name] in the
    compilation [c]: nothing, unless [name] already holds other content. *)
Definition conflictOf (name : string) (content : text) (c : Compilation) : list JsError :=
  match assets c !! name with
  | Some previous =>
      if bool_decide (previous = content) then [] else [Error (conflictMessage name)]
  | None => []
  end.

(** Unfolding of the monad and of the methods, whatever abbreviation
    shadows their names. *)
Ltac unfold_monad :=
  unfold arrayPush, registryAdd, pushWarning, getAsset, updateAsset, emitAsset,
    readFileSync, defined, thisConfig, onWorld, onSelf, onCompilation,
    bind, gets, modify, ret, throw in *.

Ltac unfold_addAssets := unfold addAssets.
Ltac unfold_processAssetsHook := unfold processAssetsHook, catchIntoErrors, onCompilation, modify.
Ltac unfold_handleMake :=
  unfold handleMake, performChildCompilation, addSrcToAssets, emitAsset.

(** The calls to the manifest entry source made between two states. *)
Definition newCalls (before after : World) : list ManifestCall :=
  drop (length (manifestCalls before)) (manifestCalls after).

(** [n] successive runs of a hook on the state the previous run left. *)
Fixpoint repeatedly (n : nat) (hook : M unit) (st : State) : State :=
  match n with
  | 0 => st
  | S k => repeatedly k hook (hook st).2
  end.

(** The number of warnings about a repeated call in a list. *)
Definition calledTwiceWarnings (ws : list JsError) : nat :=
  length (filter (λ w, isErrorWithMessage calledTwiceMessage w = true) ws).

Module Runs.

Definition swSource : text := str "precache(self.__WB_MANIFEST);".
Definition marker : text := str "self.__WB_MANIFEST".

(** The state after [handleMake] on a build with one other asset. *)
Definition made : State :=
  (Build.handleMake Build.report0 (Build.compiler0 swSource)
     (Build.start Build.config0 {["app.js"%string := str "x"]})).2.

(** The same instance and module state, on the fresh compilation of a
    rebuild. *)
Definition rebuild (st : State) : State :=
  {| world := world st; self := self st; compilation := compilation made |}.

(** A configuration that copies [swSrc] and still names a plugin. *)
Definition copyConfig : Config :=
  {| swSrc := "src/sw.js"; swDest := "sw.js";
     injectionPoint := Some marker;
     compileSrc := false; exclude := Some 1%positive;
     webpackCompilationPlugins := Some ["BannerPlugin"%string]; mode := None |}.

End Runs.

(** ** The configuration before the hooks run *)

(** The object handed to the constructor.  [swDest] and [mode] may be
    missing from it: [None] is a missing property, [Some None] a property
    that is there and holds [undefined]. *)
Record UserConfig := {
  userSwSrc : option string;
  userSwDest : option (option string);
  userMode : option (option string);
  userInjectionPoint : option text;
  userCompileSrc : bool;
  userExclude : option loc;
  userWebpackCompilationPlugins : option (list Plugin)
}.

Section Propagation.

(** [upath.parse(path).name] *)
Variable upath_parse_name : string → string.

(** Lines 142-153.  [Object.assign(derived, this.config)] copies every
    property that [this.config] has, so the derived [mode] and [swDest]
    stay only where [this.config] has no such property.  The derived
    [swDest] is computed first, and [upath.parse(undefined)] throws. *)
Definition propagateWebpackConfig (compilerMode : option string) (c : UserConfig)
  : JsError + UserConfig :=
  match userSwSrc c with
  | None => inl (TypeError "this.config.swSrc")
  | Some src =>
      let derivedSwDest := (upath_parse_name src +:+ ".js")%string in
      inr {| userSwSrc := userSwSrc c;
             userSwDest := Some (default (Some derivedSwDest) (userSwDest c));
             userMode := Some (default compilerMode (userMode c));
             userInjectionPoint := userInjectionPoint c;
             userCompileSrc := userCompileSrc c;
             userExclude := userExclude c;
             userWebpackCompilationPlugins := userWebpackCompilationPlugins c |}
  end.

End Propagation.

(** The configuration as the hooks read it, when [swSrc] and [swDest] are
    strings. *)
Definition hookConfig (c : UserConfig) : option Config :=
  src ← userSwSrc c;
  dest ← mjoin (userSwDest c);
  Some {| swSrc := src; swDest := dest;
          injectionPoint := userInjectionPoint c;
          compileSrc := userCompileSrc c;
          exclude := userExclude c;
          webpackCompilationPlugins := userWebpackCompilationPlugins c;
          mode := mjoin (userMode c) |}.

(** ** More notions used to state the properties *)

(** What a method threw, as the list it adds to [compilation.errors]. *)
Definition thrown {A} (o : Outcome A) : list JsError :=
  match o with
  | Threw e => [e]
  | Returned _ => []
  end.

(** The state in which [addAssets] reads the [swDest] asset: the registry
    predicate has been pushed onto the array at [l] and the resolved
    [swSrc] is among the file dependencies. *)
Definition prepared (upath_resolve : string → string) (l : loc) (st : State) : State :=
  {| world :=
       {| generatedAssetNames := generatedAssetNames (world st);
          arrays := <[l := default [] (arrays (world st) !! l) ++ [isGenerated]]>
                      (arrays (world st));
          manifestCalls := manifestCalls (world st) |};
     self := self st;
     compilation :=
       with_fileDependencies
         ({[upath_resolve (swSrc (config (self st)))]}
            ∪ fileDependencies (compilation st))
         (compilation st) |}.

(** One run of a hook for each compilation of a list, in turn, on the same
    instance and module state: the rebuilds of watch mode. *)
Fixpoint rebuilds (hook : M unit) (cs : list Compilation) (st : State) : State :=
  match cs with
  | [] => st
  | c :: cs' =>
      rebuilds hook cs'
        (hook {| world := world st; self := self st; compilation := c |}).2
  end.

(** Collaborators that fail, and builds that use them. *)
Module Cases.

Definition rejecting (c : Config) (heap : gmap loc (list Condition))
  : text + Config * gmap loc (list Condition) :=
  inl (str "swSrc is a required option").

Definition crashingChild (cc : ChildCompiler) (c : Compilation) : ChildOutcome :=
  ChildFailed (Error (str "child compiler crashed")).

Definition failingManifest (c : Compilation) (call : ManifestCall)
  : JsError + nat * list ManifestEntry :=
  inl (Error (str "manifestTransforms failed")).

Definition parseName (path : string) : string :=
  if bool_decide (path = "src/sw.ts"%string) then "sw"%string else path.

Definition userConfig0 : UserConfig :=
  {| userSwSrc := Some "src/sw.ts"%string; userSwDest := None; userMode := None;
     userInjectionPoint := Some (str "self.__WB_MANIFEST");
     userCompileSrc := true; userExclude := Some 1%positive;
     userWebpackCompilationPlugins := None |}.

(** A compilation that has the service worker and its source map. *)
Definition withMap : State :=
  Build.start Build.config0
    {["sw.js"%string := str "precache(self.__WB_MANIFEST);";
      "sw.js.map"%string := str "{}"]}.

(** A compilation that has the service worker only. *)
Definition withoutMap : State :=
  Build.start Build.config0
    {["sw.js"%string := str "precache(self.__WB_MANIFEST);";
      "app.js"%string := str "x"]}.

(** A service worker in which the marker [__WB__] starts at two indices,
    2 and 6, the two occurrences sharing two underscores. *)
Definition overlapConfig : Config :=
  {| swSrc := "src/sw.js"; swDest := "sw.js";
     injectionPoint := Some (str "__WB__");
     compileSrc := true; exclude := Some 1%positive;
     webpackCompilationPlugins := None; mode := None |}.

Definition overlapping : State :=
  Build.start overlapConfig {["sw.js"%string := str "x(__WB__WB__)"]}.

(** After [handleMake] has run: a rebuild whose service worker has lost the
    injection point. *)
Definition withoutMarker : State :=
  {| world := world Runs.made; self := self Runs.made;
     compilation :=
       Build.compilation0 {["sw.js"%string := str "precache([]);";
                            "app.js"%string := str "x"]} |}.

(** A service worker without the injection point, and its source map. *)
Definition mapWithoutMarker : State :=
  Build.start Build.config0
    {["sw.js"%string := str "precache([]);"; "sw.js.map"%string := str "{}"]}.

End Cases.

(** The compilation as the collaborators of [addAssets] are handed it: with
    the warning of the guard, if any, and the file dependency. *)
Definition seenCompilation (upath_resolve : string → string) (st : State) : Compilation :=
  let c := compilation (noteInvocation st).2 in
  with_fileDependencies
    ({[upath_resolve (swSrc (config (self st)))]} ∪ fileDependencies c) c.

(** The call to the manifest entry source that [addAssets] makes when it is
    run in the state [st]. *)
Definition manifestCallOf (st : State) : ManifestCall :=
  {| callConfig := config (self st);
     callExclude := arrayContent (world st) (exclude (config (self st))) ++ [isGenerated];
     callRegistry := generatedAssetNames (world st) |}.

(** [addAssets], run in the state [st], gets past line 371: [exclude], the
    [swDest] asset and the injection point are there, and the check of the
    injection point does not throw. *)
Definition passesCheck (st : State) : bool :=
  let cfg := config (self st) in
  match exclude cfg with
  | None => false
  | Some _ =>
      match assets (compilation st) !! swDest cfg with
      | None => false
      | Some swAssetString =>
          match injectionPoint cfg with
          | None => false
          | Some marker =>
              match checkInjectionPoint marker swAssetString with
              | Returned _ => true
              | Threw _ => false
              end
          end
      end
  end.

(** What a call hands over about the name [N]: the registry predicate is
    the last condition of its [exclude] list, [N] is registered at the time
    of the call, and the predicate answers [true] when it is put the name
    [N], with the registry as it is at the call and as it may grow later,
    and [false] when it is put an object. *)
Definition predicateFor (N : string) (call : ManifestCall) : Prop :=
  last (callExclude call) = Some isGenerated ∧
  N ∈ callRegistry call ∧
  (∀ registry, callRegistry call ⊆ registry → holds registry isGenerated N = true) ∧
  (∀ registry, holdsForObject registry isGenerated N = false).

Ltac unfold_stages :=
  unfold locateInjectionPoint, computeManifestEntries, injectManifest, prepared,
    seenCompilation, manifestCallOf.
Ltac unfold_prepared := unfold prepared.
Ltac unfold_hooks := unfold makeHook, processAssetsHook, catchIntoErrors.

(** * Properties *)

(** ** Facts about strings and patterns *)

Module TextFacts.

Import Text.

Lemma startsWith_spec p s : startsWith p s = true ↔ ∃ k, s = p ++ k.
Proof.
  revert s. induction p as [|a p IH]; intros s; simpl.
  - split; [eauto | done].
  - destruct s as [|b s].
    + split; [done | intros [k Hk]; discriminate].
    + rewrite andb_true_iff, Ascii.eqb_eq, IH. split.
      * intros [-> [k ->]]. eauto.
      * intros [k Hk]. injection Hk as -> ->. eauto.
Qed.

Lemma startsWith_app p k : startsWith p (p ++ k) = true.
Proof. apply startsWith_spec. eauto. Qed.

Lemma startsWith_length p s : startsWith p s = true → length p ≤ length s.
Proof.
  intros [k ->]%startsWith_spec. rewrite length_app. lia.
Qed.

Lemma occursAt_0 p s : occursAt p s 0 ↔ startsWith p s = true.
Proof. unfold occursAt. simpl. split; [tauto | split; [lia | done]]. Qed.

Lemma occursAt_S p c s i : occursAt p (c :: s) (S i) ↔ occursAt p s i.
Proof. unfold occursAt. simpl. split; intros [? ?]; split; (lia || done). Qed.

Lemma occursAt_nil p i : occursAt p [] i → i = 0.
Proof. intros [H _]. simpl in H. lia. Qed.

(** An occurrence splits the text around the pattern. *)
Lemma occursAt_split p s i :
  occursAt p s i ↔ ∃ a b, s = a ++ p ++ b ∧ length a = i.
Proof.
  split.
  - intros [Hi [k Hk]%startsWith_spec].
    exists (take i s), k. rewrite <- Hk, take_drop.
    split; [done | rewrite length_take; lia].
  - intros (a & b & -> & <-). split.
    + rewrite length_app. lia.
    + rewrite drop_app_length. apply startsWith_app.
Qed.

Lemma indexOf_Some p s i :
  indexOf p s = Some i ↔ occursAt p s i ∧ ∀ j, occursAt p s j → i ≤ j.
Proof.
  revert i. induction s as [|c s IH]; intros i; simpl.
  - destruct (startsWith p []) eqn:E.
    + split.
      * intros [= <-]. split; [by apply occursAt_0 | intros; lia].
      * intros [_ H]. f_equal. specialize (H 0). rewrite occursAt_0 in H.
        specialize (H E). lia.
    + split; [done |]. intros [H _]. pose proof (occursAt_nil _ _ H) as ->.
      apply occursAt_0 in H. congruence.
  - destruct (startsWith p (c :: s)) eqn:E.
    + split.
      * intros [= <-]. split; [by apply occursAt_0 | intros; lia].
      * intros [_ H]. f_equal. specialize (H 0). rewrite occursAt_0 in H.
        specialize (H E). lia.
    + destruct (indexOf p s) as [k|] eqn:Ek; simpl.
      * destruct (proj1 (IH k) eq_refl) as [Hk Hmin]. split.
        -- intros [= <-]. split; [by apply occursAt_S |].
           intros [|j] Hj; [apply occursAt_0 in Hj; congruence |].
           apply occursAt_S in Hj. apply Hmin in Hj. lia.
        -- intros [Hi Hle]. destruct i as [|i].
           { apply occursAt_0 in Hi. congruence. }
           apply occursAt_S in Hi. f_equal. f_equal.
           apply Hmin in Hi as ?.
           assert (occursAt p (c :: s) (S k)) as Hk' by by apply occursAt_S.
           apply Hle in Hk'. lia.
      * split; [done |]. intros [Hi _]. destruct i as [|i].
        { apply occursAt_0 in Hi. congruence. }
        apply occursAt_S in Hi. exfalso.
        clear E. revert i Hi.
        assert (∀ i, ¬ (occursAt p s i ∧ ∀ j, occursAt p s j → i ≤ j)) as Hno.
        { intros i Hi. apply IH in Hi. congruence. }
        intros i. induction (lt_wf i) as [i _ IHi]. intros Hi.
        apply (Hno i). split; [done |]. intros j Hj.
        destruct (decide (i ≤ j)); [done |]. exfalso. apply (IHi j); [lia | done].
Qed.

Lemma indexOf_None p s : indexOf p s = None ↔ ∀ i, ¬ occursAt p s i.
Proof.
  split.
  - intros HN i Hi. induction (lt_wf i) as [i _ IHi].
    assert (indexOf p s = Some i) as E; [| congruence].
    apply indexOf_Some. split; [done |]. intros j Hj.
    destruct (decide (i ≤ j)); [done |]. exfalso. apply (IHi j); [lia | done].
  - intros Hno. destruct (indexOf p s) as [i|] eqn:E; [| done].
    apply indexOf_Some in E as [Hi _]. by apply Hno in Hi.
Qed.

Lemma stride_pos p : 1 ≤ stride p.
Proof. unfold stride. lia. Qed.

Lemma matchesFrom_nonempty p s k :
  matchesFrom p k s ≠ [] ↔ ∃ j, k ≤ j ∧ occursAt p s j.
Proof.
  revert k. induction s as [|c s IH]; intros [|k]; simpl.
  - destruct (startsWith p []) eqn:E.
    + split; [| done]. intros _. exists 0. split; [lia | by apply occursAt_0].
    + split; [done |]. intros (j & _ & Hj).
      pose proof (occursAt_nil _ _ Hj) as ->. apply occursAt_0 in Hj. congruence.
  - split; [done |]. intros (j & Hk & Hj). apply occursAt_nil in Hj. lia.
  - destruct (startsWith p (c :: s)) eqn:E.
    + split; [| done]. intros _. exists 0. split; [lia | by apply occursAt_0].
    + rewrite IH. split.
      * intros (j & _ & Hj). exists (S j). split; [lia | by apply occursAt_S].
      * intros ([|j] & _ & Hj); [apply occursAt_0 in Hj; congruence |].
        exists j. split; [lia | by apply occursAt_S in Hj].
  - rewrite IH. split.
    + intros (j & ? & Hj). exists (S j). split; [lia | by apply occursAt_S].
    + intros ([|j] & ? & Hj); [lia |].
      exists j. split; [lia | by apply occursAt_S in Hj].
Qed.

Lemma matchesFrom_nil p s k :
  matchesFrom p k s = [] ↔ ∀ j, k ≤ j → ¬ occursAt p s j.
Proof.
  split.
  - intros E j Hk Hj.
    assert (matchesFrom p k s ≠ []) as Hne; [| done].
    apply matchesFrom_nonempty. eauto.
  - intros Hno. destruct (matchesFrom p k s) eqn:E; [done |]. exfalso.
    assert (matchesFrom p k s ≠ []) as Hne by (rewrite E; done).
    apply matchesFrom_nonempty in Hne as (j & ? & ?). naive_solver.
Qed.

Lemma length_ge_2_cons {A} (x : A) (l : list A) : 2 ≤ length (x :: l) ↔ l ≠ [].
Proof. destruct l; simpl; split; (done || lia). Qed.

Lemma matchesFrom_two p s k :
  2 ≤ length (matchesFrom p k s) ↔
  ∃ i j, k ≤ i ∧ occursAt p s i ∧ occursAt p s j ∧ i + stride p ≤ j.
Proof.
  pose proof (stride_pos p) as Hpos.
  revert k. induction s as [|c s IH]; intros [|k]; simpl.
  - split.
    + destruct (startsWith p []); simpl; lia.
    + intros (i & j & _ & Hi & Hj & Hij).
      apply occursAt_nil in Hi, Hj. lia.
  - split; [lia |]. intros (i & j & _ & Hi & Hj & Hij).
    apply occursAt_nil in Hi, Hj. lia.
  - destruct (startsWith p (c :: s)) eqn:E.
    + rewrite length_ge_2_cons, matchesFrom_nonempty. split.
      * intros (j & Hk & Hj). exists 0, (S j).
        split_and!; [lia | by apply occursAt_0 | by apply occursAt_S |].
        unfold stride. lia.
      * intros (i & [|j] & _ & _ & Hj & Hij); [lia |].
        exists j. split; [unfold stride in Hij; lia | by apply occursAt_S in Hj].
    + rewrite IH. split.
      * intros (i & j & _ & Hi & Hj & Hij). exists (S i), (S j).
        split_and!; [lia | by apply occursAt_S | by apply occursAt_S | lia].
      * intros ([|i] & j & _ & Hi & Hj & Hij);
          [apply occursAt_0 in Hi; congruence |].
        destruct j as [|j]; [lia |]. exists i, j.
        apply occursAt_S in Hi, Hj. split_and!; (done || lia).
  - rewrite IH. split.
    + intros (i & j & ? & Hi & Hj & Hij). exists (S i), (S j).
      split_and!; [lia | by apply occursAt_S | by apply occursAt_S | lia].
    + intros ([|i] & j & ? & Hi & Hj & Hij); [lia |].
      destruct j as [|j]; [lia |]. exists i, j.
      apply occursAt_S in Hi, Hj. split_and!; (done || lia).
Qed.

Lemma matchesFrom_all_equal p s k : Forall (eq p) (matchesFrom p k s).
Proof.
  revert k. induction s as [|c s IH]; intros [|k]; simpl; auto.
  - destruct (startsWith p []); auto.
  - destruct (startsWith p (c :: s)); auto.
Qed.

Lemma getSubstitution_plain matched before after tpl :
  "$"%char ∉ tpl → getSubstitution matched before after tpl = tpl.
Proof.
  induction tpl as [|c r IH]; [done |]. intros Hnot.
  apply not_elem_of_cons in Hnot as [Hc Hr]. simpl.
  destruct (Ascii.eqb_spec c "$"); [congruence |]. by rewrite IH.
Qed.

Lemma replace_plain a p b tpl :
  indexOf p (a ++ p ++ b) = Some (length a) →
  "$"%char ∉ tpl →
  replace (a ++ p ++ b) p tpl = a ++ tpl ++ b.
Proof.
  intros Hi Hplain. unfold replace. rewrite Hi. simpl.
  rewrite getSubstitution_plain by done.
  rewrite take_app_length.
  rewrite drop_app_add', drop_app_length; done.
Qed.

Lemma replaceAllChar_without c d s : c ≠ d → c ∉ replaceAllChar c d s.
Proof.
  intros Hne. unfold replaceAllChar. induction s as [|x s IH].
  - apply not_elem_of_nil.
  - rewrite fmap_cons. apply not_elem_of_cons. split; [| done].
    destruct (Ascii.eqb_spec x c); congruence.
Qed.

Lemma replaceAllChar_id c d s : c ∉ s → replaceAllChar c d s = s.
Proof.
  unfold replaceAllChar. induction s as [|x s IH]; [done |]. intros Hnot.
  apply not_elem_of_cons in Hnot as [Hx Hs]. rewrite fmap_cons.
  destruct (Ascii.eqb_spec x c); [congruence |]. by rewrite IH.
Qed.

Lemma replaceAllChar_length c d s : length (replaceAllChar c d s) = length s.
Proof. unfold replaceAllChar. by rewrite length_fmap. Qed.

End TextFacts.

Module RegExpFacts.

Import RegExp.

Lemma backslash_is_syntax : isSyntaxCharacter "\" = true.
Proof. reflexivity. Qed.

Lemma literalOfPattern_escapeRegExp m :
  literalOfPattern (escapeRegExp m) = Some m.
Proof.
  induction m as [|c m IH]; [done |].
  unfold escapeRegExp in *. rewrite bind_cons.
  destruct (isSyntaxCharacter c) eqn:E; simpl.
  - rewrite E, IH. done.
  - destruct (Ascii.eqb_spec c "\") as [->|_].
    + rewrite backslash_is_syntax in E. done.
    + rewrite E, IH. done.
Qed.

Lemma match_escaped s m :
  match_ s (RegExp (escapeRegExp m) true) =
  Some (match Text.matchesFrom m 0 s with [] => None | ms => Some ms end).
Proof. unfold match_. simpl. by rewrite literalOfPattern_escapeRegExp. Qed.

End RegExpFacts.

(** ** The injection point check *)

Lemma checkInjectionPoint_matches injectionPoint swAssetString :
  checkInjectionPoint injectionPoint swAssetString =
  match Text.matchesFrom injectionPoint 0 swAssetString with
  | [] => Threw (Error (notFoundMessage injectionPoint))
  | [_] => Returned tt
  | _ => Threw (Error (multipleMessage injectionPoint))
  end.
Proof.
  unfold checkInjectionPoint. rewrite RegExpFacts.match_escaped.
  destruct (Text.matchesFrom injectionPoint 0 swAssetString) as [|m [|m' ms]]; done.
Qed.

Lemma matches_none p s : Text.matchesFrom p 0 s = [] ↔ noOccurrence p s.
Proof.
  rewrite TextFacts.matchesFrom_nil. unfold noOccurrence. split.
  - intros H i. apply H. lia.
  - intros H i _. apply H.
Qed.

Lemma matches_two p s : 2 ≤ length (Text.matchesFrom p 0 s) ↔ twoDisjointOccurrences p s.
Proof.
  rewrite TextFacts.matchesFrom_two. unfold twoDisjointOccurrences. split.
  - intros (i & j & _ & ?). eauto.
  - intros (i & j & ?). exists i, j. split; [lia | done].
Qed.

Lemma matches_one p s : length (Text.matchesFrom p 0 s) = 1 ↔ oneDisjointOccurrence p s.
Proof.
  unfold oneDisjointOccurrence. rewrite <- matches_two. split.
  - intros Hlen. split; [| lia].
    assert (Text.matchesFrom p 0 s ≠ []) as Hne by (intros E; rewrite E in Hlen; done).
    apply TextFacts.matchesFrom_nonempty in Hne as (j & _ & Hj). eauto.
  - intros [[i Hi] Hnot].
    assert (Text.matchesFrom p 0 s ≠ []) as Hne.
    { apply TextFacts.matchesFrom_nonempty. exists i. split; [lia | done]. }
    destruct (Text.matchesFrom p 0 s) as [|m [|m' ms]]; simpl in *; (done || lia).
Qed.

(** A marker that starts at one index only has no two occurrences. *)
Lemma unique_index_oneDisjointOccurrence p s i :
  Text.occursAt p s i → (∀ j, Text.occursAt p s j → j = i) → oneDisjointOccurrence p s.
Proof.
  intros Hi Huniq. split; [eauto |]. intros (a & b & Ha & Hb & Hab).
  apply Huniq in Ha, Hb. pose proof (TextFacts.stride_pos p). lia.
Qed.

Lemma messages_differ injectionPoint :
  notFoundMessage injectionPoint ≠ multipleMessage injectionPoint.
Proof. unfold notFoundMessage, multipleMessage. simpl. discriminate. Qed.

(** The check of lines 357-371 on its own.  The pattern built from the
    escaped injection point denotes the injection point itself, taken
    literally.  The check throws the "Can't find" error exactly when the
    injection point starts nowhere in the text, the "Multiple instances"
    error exactly when the text has two occurrences that do not overlap,
    and it passes in the one case left. *)
Lemma checkInjectionPoint_occurrences (injectionPoint swAssetString : text) :
  RegExp.literalOfPattern (RegExp.escapeRegExp injectionPoint) = Some injectionPoint ∧
  (checkInjectionPoint injectionPoint swAssetString
     = Threw (Error (notFoundMessage injectionPoint))
   ↔ noOccurrence injectionPoint swAssetString) ∧
  (checkInjectionPoint injectionPoint swAssetString
     = Threw (Error (multipleMessage injectionPoint))
   ↔ twoDisjointOccurrences injectionPoint swAssetString) ∧
  (checkInjectionPoint injectionPoint swAssetString = Returned tt
   ↔ oneDisjointOccurrence injectionPoint swAssetString) ∧
  (∃ a b, notFoundMessage injectionPoint = a ++ injectionPoint ++ b) ∧
  (∃ a b c, multipleMessage injectionPoint
            = a ++ injectionPoint ++ b ++ str "Include it only once." ++ c).
Proof.
  pose proof (messages_differ injectionPoint) as Hdiff.
  split_and!.
  - apply RegExpFacts.literalOfPattern_escapeRegExp.
  - rewrite <- matches_none, checkInjectionPoint_matches.
    destruct (Text.matchesFrom injectionPoint 0 swAssetString) as [|m [|m' ms]];
      split; intros H; (done || congruence).
  - rewrite <- matches_two, checkInjectionPoint_matches.
    destruct (Text.matchesFrom injectionPoint 0 swAssetString) as [|m [|m' ms]];
      simpl; split; intros H; (done || lia || congruence).
  - rewrite <- matches_one, checkInjectionPoint_matches.
    destruct (Text.matchesFrom injectionPoint 0 swAssetString) as [|m [|m' ms]];
      simpl; split; intros H; (done || lia || congruence).
  - by exists (str "Can't find "), (str " in your SW source.").
  - exists (str "Multiple instances of "), (str " were found in your SW source. "),
      (str " For more info, see https://github.com/GoogleChrome/workbox/issues/2681").
    reflexivity.
Qed.

(** The indices at which the injection point starts. *)
Lemma elem_of_startIndices p s i : i ∈ startIndices p s ↔ Text.occursAt p s i.
Proof.
  unfold startIndices, Text.occursAt.
  rewrite list_elem_of_filter, elem_of_seq. intuition lia.
Qed.

Lemma startIndices_nil p s : startIndices p s = [] ↔ noOccurrence p s.
Proof.
  unfold noOccurrence. split.
  - intros E i Hi. apply elem_of_startIndices in Hi. rewrite E in Hi.
    by apply not_elem_of_nil in Hi.
  - intros H. destruct (startIndices p s) as [|i l] eqn:E; [done |].
    exfalso. apply (H i), elem_of_startIndices. rewrite E. apply list_elem_of_here.
Qed.

Lemma startIndices_one p s :
  length (startIndices p s) = 1 → oneDisjointOccurrence p s.
Proof.
  intros Hlen. destruct (startIndices p s) as [|i [|j l]] eqn:E; try done.
  apply (unique_index_oneDisjointOccurrence p s i).
  - apply elem_of_startIndices. rewrite E. apply list_elem_of_here.
  - intros j Hj. apply elem_of_startIndices in Hj. rewrite E in Hj.
    by apply list_elem_of_singleton in Hj.
Qed.

Lemma startIndices_two p s :
  twoDisjointOccurrences p s → 2 ≤ length (startIndices p s).
Proof.
  intros (i & j & Hi & Hj & Hij). pose proof (TextFacts.stride_pos p) as Hpos.
  apply elem_of_startIndices in Hi, Hj.
  destruct (startIndices p s) as [|a [|b l]]; simpl; [| | lia].
  - by apply not_elem_of_nil in Hi.
  - apply list_elem_of_singleton in Hi, Hj. lia.
Qed.

Example check_none :
  checkInjectionPoint (str "self.__WB_MANIFEST") (str "precache([]);")
  = Threw (Error (str "Can't find self.__WB_MANIFEST in your SW source.")).
Proof. reflexivity. Qed.

Example check_metacharacters :
  checkInjectionPoint (str "a.c") (str "abc a.c") = Returned tt ∧
  checkInjectionPoint (str "(x|y)*") (str "x (x|y)* y") = Returned tt.
Proof. split; reflexivity. Qed.

Example check_overlap :
  checkInjectionPoint (str "aa") (str "aaa") = Returned tt ∧
  checkInjectionPoint (str "aa") (str "aaaa")
  = Threw (Error (multipleMessage (str "aa"))).
Proof. split; reflexivity. Qed.

(** ** The manifest string *)

Lemma join_head (c : ascii) sep x rest : c ∈ x → c ∈ JSON.join sep (x :: rest).
Proof.
  intros Hc. destruct rest as [|y rest]; simpl; [done |].
  apply elem_of_app. by left.
Qed.

Lemma dquote_in_member key value : JSON.dquote ∈ stringifyMember key value.
Proof. unfold stringifyMember, JSON.quote. simpl. apply list_elem_of_here. Qed.

Lemma dquote_in_stringifyEntry e : JSON.dquote ∈ stringifyEntry e.
Proof.
  unfold stringifyEntry. apply elem_of_app. right. apply elem_of_app. left.
  destruct (integrity e); simpl app; apply join_head, dquote_in_member.
Qed.

Lemma dquote_in_stringify e es : JSON.dquote ∈ stringify (e :: es).
Proof.
  unfold stringify. apply elem_of_app. right. apply elem_of_app. left.
  rewrite fmap_cons. apply join_head, dquote_in_stringifyEntry.
Qed.

Lemma evalCheapSourceMapAndMinimize_true o :
  evalCheapSourceMapAndMinimize o = true ↔
  ∃ opts opt, o = Some opts ∧ devtool opts = Some "eval-cheap-source-map"%string ∧
              optimization opts = Some opt ∧ minimize opt = true.
Proof.
  unfold evalCheapSourceMapAndMinimize. split.
  - destruct o as [opts|]; [| done].
    intros [Hd Hm]%andb_true_iff. apply bool_decide_eq_true in Hd.
    destruct (optimization opts) as [opt|] eqn:E; [| done]. eauto 6.
  - intros (opts & opt & -> & Hd & -> & Hm).
    apply andb_true_iff. split; [by apply bool_decide_eq_true | done].
Qed.

(** C3, as it is stated, fails on the empty manifest: its serialisation
    has no double quote although [compileSrc] is false. *)
Lemma empty_manifest_without_rewrite :
  ¬ (JSON.dquote ∉ serializeManifest false None []
     ↔ false = true ∧ evalCheapSourceMapAndMinimize None = false).
Proof.
  intros [H _].
  assert (JSON.dquote ∉ serializeManifest false None []) as Hnot.
  { vm_compute. intros Hin. repeat (apply elem_of_cons in Hin as [Hin|Hin]; [done |]).
    by apply elem_of_nil in Hin. }
  destruct (H Hnot). done.
Qed.

(** C3, amended.  When [compileSrc] holds and the options are not the pair
    of devtool [eval-cheap-source-map] with [optimization.minimize], the
    manifest string is the serialisation with every double quote turned
    into a single quote, and has no double quote; otherwise it is the
    serialisation itself.  For a manifest with at least one entry, the
    manifest string is free of double quotes precisely in the first case;
    the empty manifest is serialised as [[]] in both. *)
Theorem manifest_string_quotes (compileSrc : bool) (o : option Options)
    (entries : list ManifestEntry) :
  (if compileSrc && negb (evalCheapSourceMapAndMinimize o)
   then serializeManifest compileSrc o entries
        = Text.replaceAllChar JSON.dquote JSON.squote (stringify entries)
        ∧ JSON.dquote ∉ serializeManifest compileSrc o entries
   else serializeManifest compileSrc o entries = stringify entries) ∧
  match entries with
  | [] => serializeManifest compileSrc o entries = str "[]"
  | _ :: _ =>
      JSON.dquote ∉ serializeManifest compileSrc o entries
      ↔ compileSrc = true ∧ evalCheapSourceMapAndMinimize o = false
  end.
Proof.
  unfold serializeManifest. split.
  - destruct (compileSrc && negb (evalCheapSourceMapAndMinimize o)); [| done].
    split; [done |]. by apply TextFacts.replaceAllChar_without.
  - destruct entries as [|e es].
    + by destruct (compileSrc && negb (evalCheapSourceMapAndMinimize o)).
    + destruct compileSrc, (evalCheapSourceMapAndMinimize o); cbn [andb negb];
        (split; [| intros [? ?]; try done]);
        try (intros Hnot; exfalso; apply Hnot, dquote_in_stringify).
      * done.
      * by apply TextFacts.replaceAllChar_without.
Qed.

Example manifest_string_scenario :
  let entries :=
    [ {| integrity := None; revision := Some (str "123"); url := str "a.js" |};
      {| integrity := None; revision := None; url := str "b.js" |} ] in
  serializeManifest true None entries
  = str "[{'revision':'123','url':'a.js'},{'revision':null,'url':'b.js'}]" ∧
  serializeManifest false None entries
  = Text.replaceAllChar JSON.squote JSON.dquote
      (str "[{'revision':'123','url':'a.js'},{'revision':null,'url':'b.js'}]").
Proof. split; reflexivity. Qed.

(** ** The replacement without a source map *)

(** X16. When the manifest string has no dollar sign it is put in place of
    the first occurrence of the injection point as it is. *)
Lemma inject_plain swAssetString injectionPoint manifestString i :
  Text.indexOf injectionPoint swAssetString = Some i →
  "$"%char ∉ manifestString →
  let result := injectWithoutSourceMap swAssetString injectionPoint manifestString in
  result = take i swAssetString ++ manifestString
           ++ drop (i + length injectionPoint) swAssetString ∧
  Text.occursAt manifestString result i ∧
  length result + length injectionPoint = length swAssetString + length manifestString.
Proof.
  intros Hi Hplain. simpl.
  pose proof Hi as [Hocc _]%TextFacts.indexOf_Some.
  apply TextFacts.occursAt_split in Hocc as (a & b & -> & <-).
  unfold injectWithoutSourceMap. rewrite TextFacts.replace_plain by done.
  rewrite take_app_length, drop_app_add', drop_app_length by done.
  split_and!; [done | | rewrite !length_app; lia].
  apply TextFacts.occursAt_split. eauto.
Qed.

(** C1 at a manifest with a dollar sign in a URL.  The text has the
    injection point once, at index 9, and no source map; the asset
    [a$$.js] gives the manifest string [[{'revision':null,'url':'a$$.js'}]].
    [addAssets] writes a text in which [$$] has become [$]: the manifest
    string does not occur at index 9 and the length is one less than the
    length of the text minus the marker plus the manifest string. *)
Example dollar_in_manifest_is_expanded :
  let swSource := str "precache(self.__WB_MANIFEST);" in
  let marker := str "self.__WB_MANIFEST" in
  let manifestString := serializeManifest true None [Build.entryFor "a$$.js"] in
  let made :=
    (Build.handleMake Build.report0 (Build.compiler0 swSource)
       (Build.start Build.config0 {["a$$.js"%string := str "x"]})).2 in
  let result := Build.addAssets None made in
  assets (compilation made) !! "sw.js"%string = Some swSource ∧
  checkInjectionPoint marker swSource = Returned tt ∧
  Text.indexOf marker swSource = Some 9 ∧
  manifestString = str "[{'revision':null,'url':'a$$.js'}]" ∧
  result.1 = Returned tt ∧
  assets (compilation result.2) !! "sw.js"%string
  = Some (injectWithoutSourceMap swSource marker manifestString) ∧
  injectWithoutSourceMap swSource marker manifestString
  = str "precache([{'revision':null,'url':'a$.js'}]);" ∧
  ¬ Text.occursAt manifestString
      (injectWithoutSourceMap swSource marker manifestString) 9 ∧
  length (injectWithoutSourceMap swSource marker manifestString) + 1
  = length swSource - length marker + length manifestString.
Proof.
  split_and!; try (vm_compute; reflexivity).
  intros [_ H]. vm_compute in H. discriminate.
Qed.

(** ** The stateful methods *)

Section Properties.

Context
  (validate : Config → gmap loc (list Condition) → text + Config * gmap loc (list Condition))
  (relativeToOutputPath : Compilation → string → string)
  (runAsChild : ChildCompiler → Compilation → ChildOutcome)
  (webpack4 : bool)
  (getManifestEntries : Compilation → ManifestCall → JsError + nat * list ManifestEntry)
  (getSourcemapAssetName : Compilation → text → string → option string)
  (replaceAndUpdateSourceMap : string → text → text → text → text → JsError + text * text)
  (upath_resolve : string → string).

Local Abbreviation handleMake :=
  (handleMake validate relativeToOutputPath runAsChild webpack4).
Local Abbreviation performChildCompilation := (performChildCompilation runAsChild).
Local Abbreviation locateInjectionPoint := (locateInjectionPoint upath_resolve).
Local Abbreviation computeManifestEntries := (computeManifestEntries getManifestEntries).
Local Abbreviation injectManifest :=
  (injectManifest getSourcemapAssetName replaceAndUpdateSourceMap).
Local Abbreviation addAssets :=
  (addAssets getManifestEntries getSourcemapAssetName replaceAndUpdateSourceMap
     upath_resolve).
Local Abbreviation processAssetsHook :=
  (processAssetsHook getManifestEntries getSourcemapAssetName
     replaceAndUpdateSourceMap upath_resolve).
Local Abbreviation step :=
  (step validate relativeToOutputPath runAsChild webpack4 getManifestEntries
     getSourcemapAssetName replaceAndUpdateSourceMap upath_resolve).

(** *** What each part of [addAssets] reads and writes *)

Lemma noteInvocation_effect st :
  ∃ st', noteInvocation st = (Returned tt, st') ∧
    world st' = world st ∧
    config (self st') = config (self st) ∧
    alreadyCalled (self st') = true ∧
    compilation st' =
      with_warnings
        (if alreadyCalled (self st)
            && negb (existsb (isErrorWithMessage calledTwiceMessage)
                       (warnings (compilation st)))
         then warnings (compilation st) ++ [Error calledTwiceMessage]
         else warnings (compilation st))
        (compilation st).
Proof.
  unfold noteInvocation. destruct st as [w [cfg called] c]. unfold_monad. simpl.
  destruct called; simpl.
  - destruct (existsb _ _); simpl; eexists; split_and!; try done.
    by destruct c.
  - eexists; split_and!; try done. by destruct c.
Qed.

Lemma locateInjectionPoint_effect st :
  let r := locateInjectionPoint st in
  self r.2 = self st ∧
  generatedAssetNames (world r.2) = generatedAssetNames (world st) ∧
  manifestCalls (world r.2) = manifestCalls (world st) ∧
  warnings (compilation r.2) = warnings (compilation st) ∧
  errors (compilation r.2) = errors (compilation st) ∧
  assets (compilation r.2) = assets (compilation st) ∧
  options (compilation r.2) = options (compilation st) ∧
  match exclude (config (self st)) with
  | None => r.1 = Threw (TypeError "config.exclude") ∧ r.2 = st
  | Some l =>
      arrays (world r.2)
      = <[l := default [] (arrays (world st) !! l) ++ [isGenerated]]> (arrays (world st))
  end ∧
  ∀ cfg swAssetString marker,
    r.1 = Returned (cfg, swAssetString, marker) →
    cfg = config (self st) ∧
    assets (compilation st) !! swDest cfg = Some swAssetString ∧
    injectionPoint cfg = Some marker ∧
    checkInjectionPoint marker swAssetString = Returned tt ∧
    isGenerated ∈ arrayContent (world r.2) (exclude cfg).
Proof.
  unfold locateInjectionPoint. destruct st as [w [cfg called] c].
  unfold_monad. simpl.
  destruct (exclude cfg) as [l|] eqn:El; simpl; [| by split_and!].
  destruct (assets c !! swDest cfg) as [T|] eqn:Ea; simpl; [| by split_and!].
  destruct (injectionPoint cfg) as [ip|] eqn:Ei; simpl; [| by split_and!].
  destruct (checkInjectionPoint ip T) as [[]|e] eqn:Ec; simpl; [| by split_and!].
  split_and!; try done. intros ? ? ? [= <- <- <-]. split_and!; try done.
  unfold arrayContent. rewrite El. simpl. rewrite lookup_insert_eq. simpl.
  apply elem_of_app. right. apply list_elem_of_here.
Qed.

Lemma computeManifestEntries_effect cfg st :
  let r := computeManifestEntries cfg st in
  self r.2 = self st ∧
  compilation r.2 = compilation st ∧
  generatedAssetNames (world r.2) = generatedAssetNames (world st) ∧
  arrays (world r.2) = arrays (world st) ∧
  manifestCalls (world r.2) = manifestCalls (world st) ++
    [{| callConfig := cfg; callExclude := arrayContent (world st) (exclude cfg);
        callRegistry := generatedAssetNames (world st) |}].
Proof.
  unfold computeManifestEntries. destruct st as [w i c]. unfold_monad. simpl.
  destruct (getManifestEntries _ _); simpl; by split_and!.
Qed.

Lemma injectManifest_effect cfg swAssetString injectionPoint size entries st :
  let r := injectManifest cfg swAssetString injectionPoint size entries st in
  self r.2 = self st ∧
  warnings (compilation r.2) = warnings (compilation st) ∧
  errors (compilation r.2) = errors (compilation st) ∧
  arrays (world r.2) = arrays (world st) ∧
  manifestCalls (world r.2) = manifestCalls (world st) ∧
  generatedAssetNames (world r.2)
  = match truthy (getSourcemapAssetName (compilation st) swAssetString (swDest cfg)) with
    | Some n => {[n]} ∪ generatedAssetNames (world st)
    | None => generatedAssetNames (world st)
    end.
Proof.
  unfold injectManifest. destruct st as [w i c]. unfold_monad.
  repeat (simpl; case_match; simplify_eq); simpl; by split_and!.
Qed.

Lemma newCalls_same w w' :
  manifestCalls w' = manifestCalls w → newCalls w w' = [].
Proof. intros E. unfold newCalls. rewrite E. by apply drop_all. Qed.

Lemma newCalls_one w w' call :
  manifestCalls w' = manifestCalls w ++ [call] → newCalls w w' = [call].
Proof. intros E. unfold newCalls. rewrite E. by rewrite drop_app_length. Qed.

Lemma addAssets_effect st :
  let r := addAssets st in
  config (self r.2) = config (self st) ∧
  alreadyCalled (self r.2) = true ∧
  errors (compilation r.2) = errors (compilation st) ∧
  warnings (compilation r.2)
  = (if alreadyCalled (self st)
        && negb (existsb (isErrorWithMessage calledTwiceMessage)
                   (warnings (compilation st)))
     then warnings (compilation st) ++ [Error calledTwiceMessage]
     else warnings (compilation st)) ∧
  generatedAssetNames (world st) ⊆ generatedAssetNames (world r.2) ∧
  Forall (λ call, callRegistry call = generatedAssetNames (world st)
                  ∧ isGenerated ∈ callExclude call)
    (newCalls (world st) (world r.2)) ∧
  arrays (world r.2)
  = match exclude (config (self st)) with
    | Some l =>
        <[l := default [] (arrays (world st) !! l) ++ [isGenerated]]> (arrays (world st))
    | None => arrays (world st)
    end.
Proof.
  unfold_addAssets. unfold bind.
  destruct (noteInvocation_effect st) as (st1 & -> & Hw1 & Hc1 & Hf1 & Hcomp1).
  pose proof (locateInjectionPoint_effect st1) as H2. simpl in H2.
  destruct H2 as (Hs2 & Hr2 & Hm2 & Hws2 & Hes2 & _ & _ & Ha2 & Hret).
  destruct (locateInjectionPoint st1) as [[[[cfg T] ip]|e] st2]; simpl in *.
  - destruct (Hret _ _ _ eq_refl) as (-> & _ & _ & _ & Hgen).
    pose proof (computeManifestEntries_effect (config (self st1)) st2) as H3.
    simpl in H3. destruct H3 as (Hs3 & Hcomp3 & Hr3 & Ha3 & Hm3).
    destruct (computeManifestEntries _ st2) as [[[size entries]|e] st3]; simpl in *.
    + pose proof (injectManifest_effect (config (self st1)) T ip size entries st3) as H4.
      simpl in H4. destruct H4 as (Hs4 & Hws4 & Hes4 & Ha4 & Hm4 & Hr4).
      rewrite Hs4, Hs3, Hs2, Hws4, Hes4, Hcomp3, Hws2, Hes2, Hcomp1, Ha4, Ha3, <- Hc1.
      split_and!; try done.
      * rewrite Hr4, Hr3, Hr2, Hw1. destruct (truthy _); [apply union_subseteq_r | done].
      * erewrite newCalls_one; [| by rewrite Hm4, Hm3, Hm2, Hw1].
        apply Forall_singleton. simpl. by rewrite Hr2, Hw1.
      * rewrite <- Hw1. destruct (exclude (config (self st1))); [done |].
        by destruct Ha2 as [_ ->].
    + rewrite Hs3, Hs2, Hcomp3, Hws2, Hes2, Hcomp1, Ha3, <- Hc1.
      split_and!; try done.
      * rewrite Hr3, Hr2, Hw1. done.
      * erewrite newCalls_one; [| by rewrite Hm3, Hm2, Hw1].
        apply Forall_singleton. simpl. by rewrite Hr2, Hw1.
      * rewrite <- Hw1. destruct (exclude (config (self st1))); [done |].
        by destruct Ha2 as [_ ->].
  - rewrite Hs2, Hws2, Hes2, Hcomp1, <- Hc1. split_and!; try done.
    + rewrite Hr2, Hw1. done.
    + rewrite newCalls_same; [done | by rewrite Hm2, Hw1].
    + rewrite <- Hw1. destruct (exclude (config (self st1))); [done |].
      by destruct Ha2 as [_ ->].
Qed.

Lemma handleMake_effect parentCompiler st :
  let r := handleMake parentCompiler st in
  alreadyCalled (self r.2) = alreadyCalled (self st) ∧
  manifestCalls (world r.2) = manifestCalls (world st) ∧
  match validate (config (self st)) (arrays (world st)) with
  | inl reason => r = (Threw (Error (checkConfigurationMessage reason)), st)
  | inr (validated, heap) =>
      let dest := relativeToOutputPath (compilation st) (swDest validated) in
      config (self r.2) = with_swDest dest validated ∧
      arrays (world r.2) = heap ∧
      generatedAssetNames (world r.2) = {[dest]} ∪ generatedAssetNames (world st)
  end.
Proof.
  unfold_handleMake.
  destruct st as [w i c]. unfold_monad.
  repeat (simpl; case_match; simplify_eq); simpl; by split_and!.
Qed.

(** *** The registry over the life of the process *)

Lemma handleMake_registry parentCompiler st :
  generatedAssetNames (world st)
  ⊆ generatedAssetNames (world (handleMake parentCompiler st).2).
Proof.
  destruct (handleMake_effect parentCompiler st) as (_ & _ & H).
  destruct (validate _ _) as [reason|[validated heap]].
  - by rewrite H.
  - destruct H as (_ & _ & ->). apply union_subseteq_r.
Qed.

Lemma step_registry w w' :
  step w w' → generatedAssetNames w ⊆ generatedAssetNames w'.
Proof.
  intros [pc i c w0|i c w0].
  - apply (handleMake_registry pc {| world := w0; self := i; compilation := c |}).
  - apply (addAssets_effect {| world := w0; self := i; compilation := c |}).
Qed.

Lemma steps_registry w w' :
  rtc step w w' → generatedAssetNames w ⊆ generatedAssetNames w'.
Proof.
  induction 1 as [|w1 w2 w3 H12 _ IH]; [done |].
  etrans; [by apply step_registry | done].
Qed.

(** *** The guard on repeated calls *)

Lemma calledTwiceWarnings_snoc ws :
  calledTwiceWarnings (ws ++ [Error calledTwiceMessage]) = S (calledTwiceWarnings ws).
Proof.
  unfold calledTwiceWarnings. rewrite filter_app, length_app.
  rewrite filter_cons_True; [simpl; lia |].
  cbn [isErrorWithMessage]. by apply bool_decide_eq_true.
Qed.

Lemma calledTwiceWarnings_existsb ws :
  existsb (isErrorWithMessage calledTwiceMessage) ws = negb (calledTwiceWarnings ws =? 0).
Proof.
  unfold calledTwiceWarnings. induction ws as [|w ws IH]; [done |]. simpl.
  destruct (isErrorWithMessage calledTwiceMessage w) eqn:E.
  - by rewrite filter_cons_True.
  - rewrite filter_cons_False by (rewrite E; done). done.
Qed.

Lemma addAssets_flag st : alreadyCalled (self (addAssets st).2) = true.
Proof. apply (addAssets_effect st). Qed.

Lemma addAssets_warning_count st :
  calledTwiceWarnings (warnings (compilation (addAssets st).2))
  = (if alreadyCalled (self st)
     then Nat.max 1 (calledTwiceWarnings (warnings (compilation st)))
     else calledTwiceWarnings (warnings (compilation st))).
Proof.
  destruct (addAssets_effect st) as (_ & _ & _ & Hws & _). rewrite Hws.
  rewrite calledTwiceWarnings_existsb, negb_involutive.
  destruct (alreadyCalled (self st)); simpl; [| done].
  destruct (Nat.eqb_spec (calledTwiceWarnings (warnings (compilation st))) 0) as [E|E].
  - rewrite calledTwiceWarnings_snoc, E. done.
  - lia.
Qed.

(** C5, amended.  Every call of [addAssets] leaves the flag set.  A call
    on a fresh instance adds no warning.  A call on an instance that was
    called before adds the warning about repeated calls to the warnings of
    the compilation at hand unless an error with that message is already
    among them: a compilation that has none gets exactly one, and one that
    has it gets no further one. *)
Theorem repeated_call_warning st :
  let r := addAssets st in
  let before := warnings (compilation st) in
  let after := warnings (compilation r.2) in
  alreadyCalled (self r.2) = true ∧
  after = (if alreadyCalled (self st)
              && negb (existsb (isErrorWithMessage calledTwiceMessage) before)
           then before ++ [Error calledTwiceMessage]
           else before) ∧
  calledTwiceWarnings after
  = (if alreadyCalled (self st)
     then Nat.max 1 (calledTwiceWarnings before)
     else calledTwiceWarnings before).
Proof.
  simpl. destruct (addAssets_effect st) as (_ & Hflag & _ & Hws & _).
  split_and!; [done | done |]. apply addAssets_warning_count.
Qed.

(** X17. However often the hook runs on one compilation, the warnings of
    that compilation hold the warning about repeated calls at most once. *)
Lemma one_warning_per_compilation n st :
  calledTwiceWarnings (warnings (compilation st)) ≤ 1 →
  calledTwiceWarnings
    (warnings (compilation (repeatedly n processAssetsHook st))) ≤ 1.
Proof.
  revert st. induction n as [|n IH]; intros st Hle; [done |]. simpl.
  apply IH. unfold_processAssetsHook.
  pose proof (addAssets_warning_count st) as Hcount.
  destruct (addAssets st) as [[[]|e] st']; simpl in *;
    destruct (alreadyCalled (self st)); lia.
Qed.

(** C6, amended.  A new instance has the flag unset; [handleMake] does not
    change it; [addAssets] sets it on entry, so that it is set after every
    call of [addAssets], also after one that throws. *)
Theorem flag_set_on_entry (c : Config) parentCompiler st :
  alreadyCalled (constructor c) = false ∧
  alreadyCalled (self (handleMake parentCompiler st).2) = alreadyCalled (self st) ∧
  alreadyCalled (self (noteInvocation st).2) = true ∧
  alreadyCalled (self (addAssets st).2) = true.
Proof.
  split_and!.
  - done.
  - apply (handleMake_effect parentCompiler st).
  - destruct (noteInvocation_effect st) as (st' & E & _ & _ & Hflag & _).
    by rewrite E.
  - apply addAssets_flag.
Qed.

(** *** The child compilation *)

(** C7. When [runAsChild] reports no error, [performChildCompilation]
    returns, and the warnings and the errors of the child compilation have
    been appended to those of the compilation, whatever they are. *)
Theorem child_diagnostics_appended parentCompiler st emitted childCompilation :
  runAsChild (makeChildCompiler (config (self st)) parentCompiler) (compilation st)
    = ChildDone emitted childCompilation →
  let r := performChildCompilation parentCompiler st in
  r.1 = Returned tt ∧
  warnings (compilation r.2)
  = warnings (compilation st) ++ default [] (childWarnings <$> childCompilation) ∧
  errors (compilation r.2)
  = errors (compilation st) ++ default [] (childErrors <$> childCompilation) ∧
  world r.2 = world st ∧ self r.2 = self st.
Proof.
  intros Hrun. unfold_handleMake.
  destruct st as [w i c]. unfold_monad. simpl in *. rewrite Hrun. simpl.
  by split_and!.
Qed.

(** *** Copying the source *)


(** *** A failed check *)

(** X5. When the check of the injection point throws, [addAssets] throws
    the same error; no asset has been written and the manifest entry source has
    not been called. *)
Lemma addAssets_failed_check st l swAssetString marker e :
  exclude (config (self st)) = Some l →
  assets (compilation st) !! swDest (config (self st)) = Some swAssetString →
  injectionPoint (config (self st)) = Some marker →
  checkInjectionPoint marker swAssetString = Threw e →
  let r := addAssets st in
  r.1 = Threw e ∧
  assets (compilation r.2) = assets (compilation st) ∧
  newCalls (world st) (world r.2) = [].
Proof.
  intros Hl Ha Hi He. simpl. unfold_addAssets. unfold bind.
  destruct (noteInvocation_effect st) as (st1 & -> & Hw1 & Hc1 & _ & Hcomp1).
  pose proof (locateInjectionPoint_effect st1) as H2. simpl in H2.
  destruct H2 as (_ & _ & Hm2 & _ & _ & Ha2 & _ & _ & Hret).
  assert (assets (compilation st1) = assets (compilation st)) as Hassets
    by (by rewrite Hcomp1).
  destruct (locateInjectionPoint st1) as [[[[cfg T] m]|e'] st2] eqn:E; simpl in *.
  - destruct (Hret _ _ _ eq_refl) as (-> & HT & Hm & Hcheck & _).
    rewrite Hc1, Hassets in HT. rewrite Hc1 in Hm. congruence.
  - split_and!.
    + revert E. unfold locateInjectionPoint. destruct st1 as [w1 i1 c1].
      unfold_monad. simpl in *. rewrite Hc1, Hl. simpl.
      rewrite Hassets, Ha. simpl. rewrite Hi. simpl. rewrite He. simpl.
      by intros [= <- _].
    + by rewrite Ha2.
    + apply newCalls_same. by rewrite Hm2, Hw1.
Qed.

(** *** The configuration of the instance *)

(** [addAssets] leaves the properties of [this.config] as they are, and
    appends the registry predicate to the array that [this.config.exclude]
    refers to: the copy made by [Object.assign] shares that array. *)
Lemma addAssets_grows_exclude st l :
  exclude (config (self st)) = Some l →
  let r := addAssets st in
  config (self r.2) = config (self st) ∧
  arrayContent (world r.2) (exclude (config (self r.2)))
  = arrayContent (world st) (exclude (config (self st))) ++ [isGenerated].
Proof.
  intros Hl. simpl.
  destruct (addAssets_effect st) as (Hcfg & _ & _ & _ & _ & _ & Harr).
  split; [done |]. rewrite Hcfg. unfold arrayContent. rewrite Hl in *. simpl.
  by rewrite Harr, lookup_insert_eq.
Qed.

End Properties.

(** ** The properties on the concrete build *)

Lemma child_diagnostics_appended_witness :
  let report := {| childWarnings := [Error (str "export not found")];
                   childErrors := [Error (str "Module not found")] |} in
  let st := Build.start Build.config0 ∅ in
  let r := performChildCompilation (Build.runChild report)
             (Build.compiler0 Runs.swSource) st in
  r.1 = Returned tt ∧
  warnings (compilation r.2) = [] ++ [Error (str "export not found")] ∧
  errors (compilation r.2) = [] ++ [Error (str "Module not found")] ∧
  world r.2 = world st ∧ self r.2 = self st.
Proof.
  apply (child_diagnostics_appended
           (Build.runChild {| childWarnings := [Error (str "export not found")];
                              childErrors := [Error (str "Module not found")] |})
           (Build.compiler0 Runs.swSource) (Build.start Build.config0 ∅)
           {["sw.js"%string := Runs.swSource]}
           (Some {| childWarnings := [Error (str "export not found")];
                    childErrors := [Error (str "Module not found")] |})).
  reflexivity.
Defined.


(** C5, as it is stated, fails over rebuilds: the second and the third call
    of [addAssets] on one instance, each on the fresh compilation of a
    rebuild, both add the warning. *)
Lemma warning_on_each_rebuild :
  let first := (Build.addAssets None Runs.made).2 in
  let second := (Build.addAssets None (Runs.rebuild first)).2 in
  let third := (Build.addAssets None (Runs.rebuild second)).2 in
  calledTwiceWarnings (warnings (compilation first)) = 0 ∧
  ¬ (calledTwiceWarnings (warnings (compilation second))
     + calledTwiceWarnings (warnings (compilation third)) ≤ 1).
Proof.
  split.
  - vm_compute. reflexivity.
  - intros H. vm_compute in H. lia.
Qed.

(** C6, as it is stated, fails: a first call that throws the "Can't find"
    error leaves the flag set. *)
Lemma flag_set_by_failed_call :
  let st := Build.start Build.config0 {["sw.js"%string := str "precache([]);"]} in
  let r := Build.addAssets None st in
  alreadyCalled (self st) = false ∧
  r.1 = Threw (Error (notFoundMessage Runs.marker)) ∧
  ¬ (alreadyCalled (self r.2) = false).
Proof.
  split_and!.
  - reflexivity.
  - vm_compute. reflexivity.
  - intros H. vm_compute in H. discriminate.
Qed.

(** C9 on the concrete build.  The array that [this.config.exclude] refers
    to is empty after [handleMake]; each call of [addAssets] leaves the
    properties of [this.config] alone and appends one predicate to that
    array. *)
Example exclude_array_grows :
  let once := (Build.addAssets None Runs.made).2 in
  let twice := (Build.addAssets None (Runs.rebuild once)).2 in
  exclude (config (self Runs.made)) = Some 1%positive ∧
  arrayContent (world Runs.made) (exclude (config (self Runs.made))) = [] ∧
  config (self once) = config (self Runs.made) ∧
  arrayContent (world once) (exclude (config (self once))) = [isGenerated] ∧
  config (self twice) = config (self Runs.made) ∧
  arrayContent (world twice) (exclude (config (self twice)))
  = [isGenerated; isGenerated].
Proof. split_and!; vm_compute; reflexivity. Qed.

(** A failed check ends [addAssets] before the manifest is computed and
    before any asset is written. *)
Example failed_check_aborts :
  let st := Build.start Build.config0
              {["sw.js"%string := str "a(self.__WB_MANIFEST); b(self.__WB_MANIFEST);"]} in
  let r := Build.addAssets None st in
  r.1 = Threw (Error (multipleMessage Runs.marker)) ∧
  assets (compilation r.2) = assets (compilation st) ∧
  manifestCalls (world r.2) = [] ∧
  errors (compilation (processAssetsHook Build.manifestOf (Build.sourcemapOf None)
                         Build.replaceWithMap Build.resolve st).2)
  = [Error (multipleMessage Runs.marker)].
Proof. split_and!; vm_compute; reflexivity. Qed.

(** ** The rest of the class *)

Section Coverage.

Context
  (validate : Config → gmap loc (list Condition) → text + Config * gmap loc (list Condition))
  (relativeToOutputPath : Compilation → string → string)
  (runAsChild : ChildCompiler → Compilation → ChildOutcome)
  (webpack4 : bool)
  (getManifestEntries : Compilation → ManifestCall → JsError + nat * list ManifestEntry)
  (getSourcemapAssetName : Compilation → text → string → option string)
  (replaceAndUpdateSourceMap : string → text → text → text → text → JsError + text * text)
  (upath_resolve : string → string).

Local Abbreviation handleMake :=
  (handleMake validate relativeToOutputPath runAsChild webpack4).
Local Abbreviation makeHook :=
  (makeHook validate relativeToOutputPath runAsChild webpack4).
Local Abbreviation locateInjectionPoint := (locateInjectionPoint upath_resolve).
Local Abbreviation computeManifestEntries := (computeManifestEntries getManifestEntries).
Local Abbreviation injectManifest :=
  (injectManifest getSourcemapAssetName replaceAndUpdateSourceMap).
Local Abbreviation addAssets :=
  (addAssets getManifestEntries getSourcemapAssetName replaceAndUpdateSourceMap
     upath_resolve).
Local Abbreviation processAssetsHook :=
  (processAssetsHook getManifestEntries getSourcemapAssetName
     replaceAndUpdateSourceMap upath_resolve).
Local Abbreviation prepared := (prepared upath_resolve).

(** *** [addAssets], stage by stage *)

Lemma noteInvocation_run st :
  let st0 := (noteInvocation st).2 in
  noteInvocation st = (Returned tt, st0) ∧
  world st0 = world st ∧
  config (self st0) = config (self st) ∧
  assets (compilation st0) = assets (compilation st) ∧
  errors (compilation st0) = errors (compilation st) ∧
  fileDependencies (compilation st0) = fileDependencies (compilation st) ∧
  options (compilation st0) = options (compilation st) ∧
  getLogger (compilation st0) = getLogger (compilation st) ∧
  infoLog (compilation st0) = infoLog (compilation st).
Proof.
  simpl. destruct (noteInvocation_effect st) as (st' & E & Hw & Hc & _ & Hcomp).
  rewrite E. simpl. rewrite Hcomp. by split_and!.
Qed.

Lemma locateInjectionPoint_run st :
  locateInjectionPoint st =
  let cfg := config (self st) in
  match exclude cfg with
  | None => (Threw (TypeError "config.exclude"), st)
  | Some l =>
      match assets (compilation st) !! swDest cfg with
      | None => (Threw (TypeError "swAsset"), prepared l st)
      | Some swAssetString =>
          match injectionPoint cfg with
          | None => (Threw (TypeError "config.injectionPoint"), prepared l st)
          | Some marker =>
              match checkInjectionPoint marker swAssetString with
              | Threw e => (Threw e, prepared l st)
              | Returned _ => (Returned (cfg, swAssetString, marker), prepared l st)
              end
          end
      end
  end.
Proof.
  unfold_stages. destruct st as [w [cfg called] c].
  unfold_monad. simpl.
  destruct (exclude cfg) as [l|]; simpl; [| done].
  destruct (assets c !! swDest cfg) as [T|]; simpl; [| done].
  destruct (injectionPoint cfg) as [ip|]; simpl; [| done].
  destruct (checkInjectionPoint ip T) as [[]|e]; done.
Qed.

Lemma injectManifest_result cfg swAssetString marker size entries st old :
  assets (compilation st) !! swDest cfg = Some old →
  let r := injectManifest cfg swAssetString marker size entries st in
  let manifestString :=
    serializeManifest (compileSrc (config (self st))) (options (compilation st)) entries in
  let logged :=
    if getLogger (compilation st)
    then infoLog (compilation st) ++ [(swDest cfg, length entries, size)]
    else infoLog (compilation st) in
  fileDependencies (compilation r.2) = fileDependencies (compilation st) ∧
  match truthy (getSourcemapAssetName (compilation st) swAssetString (swDest cfg)) with
  | None =>
      r.1 = Returned tt ∧
      assets (compilation r.2)
      = <[swDest cfg := injectWithoutSourceMap swAssetString marker manifestString]>
          (assets (compilation st)) ∧
      infoLog (compilation r.2) = logged
  | Some n =>
      match assets (compilation st) !! n with
      | None =>
          r.1 = Threw (TypeError "sourcemapAsset") ∧
          assets (compilation r.2) = assets (compilation st) ∧
          infoLog (compilation r.2) = infoLog (compilation st)
      | Some originalMap =>
          match replaceAndUpdateSourceMap (swDest cfg) originalMap swAssetString
                  manifestString marker with
          | inl e =>
              r.1 = Threw e ∧
              assets (compilation r.2) = assets (compilation st) ∧
              infoLog (compilation r.2) = infoLog (compilation st)
          | inr (source, map) =>
              r.1 = Returned tt ∧
              assets (compilation r.2)
              = <[swDest cfg := source]> (<[n := map]> (assets (compilation st))) ∧
              infoLog (compilation r.2) = logged
          end
      end
  end.
Proof.
  intros Hold. unfold_stages. destruct st as [w i c]. unfold_monad. simpl in *.
  destruct (truthy _) as [n|]; simpl.
  - destruct (assets c !! n) as [m|] eqn:En; simpl; [| done].
    destruct (replaceAndUpdateSourceMap _ _ _ _ _) as [e|[source map]]; simpl; [done |].
    rewrite En. simpl.
    assert (is_Some (<[n:=map]> (assets c) !! swDest cfg)) as [x Hx].
    { apply lookup_insert_is_Some. destruct (decide (n = swDest cfg)); eauto. }
    rewrite Hx. simpl. destruct (getLogger c); simpl; done.
  - rewrite Hold. simpl. destruct (getLogger c); simpl; done.
Qed.

(** [addAssets] as the sequence of its stages. *)
Lemma addAssets_stages st :
  addAssets st =
  match locateInjectionPoint (noteInvocation st).2 with
  | (Threw e, st1) => (Threw e, st1)
  | (Returned (cfg, swAssetString, marker), st1) =>
      match computeManifestEntries cfg st1 with
      | (Threw e, st2) => (Threw e, st2)
      | (Returned (size, entries), st2) =>
          injectManifest cfg swAssetString marker size entries st2
      end
  end.
Proof.
  unfold_addAssets. unfold bind.
  destruct (noteInvocation_run st) as (-> & _). simpl.
  destruct (locateInjectionPoint _) as [[[[cfg T] ip]|e] st1]; [| done].
  destruct (computeManifestEntries _ _) as [[[size entries]|e] st2]; done.
Qed.

Lemma computeManifestEntries_outcome cfg st :
  (computeManifestEntries cfg st).1 =
  match getManifestEntries (compilation st)
          {| callConfig := cfg; callExclude := arrayContent (world st) (exclude cfg);
             callRegistry := generatedAssetNames (world st) |} with
  | inl e => Threw e
  | inr r => Returned r
  end.
Proof.
  unfold_stages. destruct st as [w i c]. unfold_monad. simpl.
  by destruct (getManifestEntries _ _).
Qed.

Lemma addAssets_located st l swAssetString marker :
  let cfg := config (self st) in
  exclude cfg = Some l →
  assets (compilation st) !! swDest cfg = Some swAssetString →
  injectionPoint cfg = Some marker →
  checkInjectionPoint marker swAssetString = Returned tt →
  addAssets st =
  match computeManifestEntries cfg (prepared l (noteInvocation st).2) with
  | (Threw e, st2) => (Threw e, st2)
  | (Returned (size, entries), st2) =>
      injectManifest cfg swAssetString marker size entries st2
  end.
Proof.
  simpl. intros Hl Ha Hi Hcheck.
  rewrite addAssets_stages, locateInjectionPoint_run.
  destruct (noteInvocation_run st) as (_ & _ & Hc & Hassets & _). simpl.
  rewrite Hc, Hl, Hassets, Ha, Hi, Hcheck. done.
Qed.

(** The call that [addAssets] makes to the manifest entry source. *)
Lemma prepared_call st l :
  exclude (config (self st)) = Some l →
  let st1 := prepared l (noteInvocation st).2 in
  {| callConfig := config (self st);
     callExclude := arrayContent (world st1) (exclude (config (self st)));
     callRegistry := generatedAssetNames (world st1) |}
  = {| callConfig := config (self st);
       callExclude := arrayContent (world st) (exclude (config (self st))) ++ [isGenerated];
       callRegistry := generatedAssetNames (world st) |}.
Proof.
  intros Hl. simpl. destruct (noteInvocation_run st) as (_ & Hw & _).
  rewrite Hl. unfold arrayContent. unfold_stages. simpl.
  rewrite lookup_insert_eq, Hw. done.
Qed.

Local Abbreviation seenCompilation := (seenCompilation upath_resolve).

Lemma prepared_compilation st l :
  compilation (prepared l (noteInvocation st).2) = seenCompilation st.
Proof.
  unfold_stages. simpl.
  destruct (noteInvocation_run st) as (_ & _ & -> & _). done.
Qed.

(** What [addAssets] does once the injection point has been found: it asks
    for the manifest entries and hands them to the last stage. *)
Lemma addAssets_after_check st l swAssetString marker :
  let cfg := config (self st) in
  exclude cfg = Some l →
  assets (compilation st) !! swDest cfg = Some swAssetString →
  injectionPoint cfg = Some marker →
  checkInjectionPoint marker swAssetString = Returned tt →
  ∃ st2,
    self st2 = self (noteInvocation st).2 ∧
    compilation st2 = seenCompilation st ∧
    generatedAssetNames (world st2) = generatedAssetNames (world st) ∧
    manifestCalls (world st2) = manifestCalls (world st) ++ [manifestCallOf st] ∧
    addAssets st =
    match getManifestEntries (seenCompilation st) (manifestCallOf st) with
    | inl e => (Threw e, st2)
    | inr (size, entries) => injectManifest cfg swAssetString marker size entries st2
    end.
Proof.
  simpl. intros Hl Ha Hi Hcheck.
  rewrite (addAssets_located st l swAssetString marker) by done.
  pose proof (computeManifestEntries_effect getManifestEntries (config (self st))
                (prepared l (noteInvocation st).2)) as (Hs & Hc & Hr & _ & Hm).
  pose proof (computeManifestEntries_outcome (config (self st))
                (prepared l (noteInvocation st).2)) as Ho.
  rewrite (prepared_call st l Hl), prepared_compilation in Ho.
  rewrite (prepared_call st l Hl) in Hm.
  destruct (noteInvocation_run st) as (_ & Hw & _).
  destruct (computeManifestEntries _ _) as [o st2]. cbn [fst snd] in *.
  exists st2. split_and!.
  - done.
  - by rewrite Hc, prepared_compilation.
  - rewrite Hr. unfold_prepared. simpl. by rewrite Hw.
  - rewrite Hm. unfold_prepared. simpl. by rewrite Hw.
  - rewrite Ho. by destruct (getManifestEntries _ _) as [e|[size entries]].
Qed.

Lemma seenCompilation_fields st :
  assets (seenCompilation st) = assets (compilation st) ∧
  options (seenCompilation st) = options (compilation st) ∧
  getLogger (seenCompilation st) = getLogger (compilation st) ∧
  infoLog (seenCompilation st) = infoLog (compilation st) ∧
  errors (seenCompilation st) = errors (compilation st) ∧
  fileDependencies (seenCompilation st)
  = {[upath_resolve (swSrc (config (self st)))]} ∪ fileDependencies (compilation st).
Proof.
  destruct (noteInvocation_run st) as (_ & _ & _ & Ha & He & Hf & Ho & Hg & Hi).
  unfold_stages. simpl. by rewrite Hf.
Qed.

(** Where [addAssets] stops before the manifest entries are asked for. *)
Lemma addAssets_early st :
  let cfg := config (self st) in
  let st0 := (noteInvocation st).2 in
  addAssets st =
  match exclude cfg with
  | None => (Threw (TypeError "config.exclude"), st0)
  | Some l =>
      match assets (compilation st) !! swDest cfg with
      | None => (Threw (TypeError "swAsset"), prepared l st0)
      | Some swAssetString =>
          match injectionPoint cfg with
          | None => (Threw (TypeError "config.injectionPoint"), prepared l st0)
          | Some marker =>
              match checkInjectionPoint marker swAssetString with
              | Threw e => (Threw e, prepared l st0)
              | Returned _ => addAssets st
              end
          end
      end
  end.
Proof.
  simpl. destruct (noteInvocation_run st) as (_ & _ & Hc & Hassets & _).
  destruct (exclude (config (self st))) as [l|] eqn:Hl.
  2: { rewrite addAssets_stages, locateInjectionPoint_run. simpl. by rewrite Hc, Hl. }
  destruct (assets (compilation st) !! swDest (config (self st))) as [T|] eqn:Ha.
  2: { rewrite addAssets_stages, locateInjectionPoint_run. simpl.
       by rewrite Hc, Hl, Hassets, Ha. }
  destruct (injectionPoint (config (self st))) as [ip|] eqn:Hi.
  2: { rewrite addAssets_stages, locateInjectionPoint_run. simpl.
       by rewrite Hc, Hl, Hassets, Ha, Hi. }
  destruct (checkInjectionPoint ip T) as [[]|e] eqn:Hcheck; [done |].
  rewrite addAssets_stages, locateInjectionPoint_run. simpl.
  by rewrite Hc, Hl, Hassets, Ha, Hi, Hcheck.
Qed.

(** What [addAssets] does once the injection point has been found, case
    by case. *)
Lemma addAssets_located_result st l swAssetString marker :
  let cfg := config (self st) in
  exclude cfg = Some l →
  assets (compilation st) !! swDest cfg = Some swAssetString →
  injectionPoint cfg = Some marker →
  checkInjectionPoint marker swAssetString = Returned tt →
  let r := addAssets st in
  fileDependencies (compilation r.2)
  = {[upath_resolve (swSrc cfg)]} ∪ fileDependencies (compilation st) ∧
  manifestCalls (world r.2) = manifestCalls (world st) ++ [manifestCallOf st] ∧
  match getManifestEntries (seenCompilation st) (manifestCallOf st) with
  | inl e =>
      r.1 = Threw e ∧
      assets (compilation r.2) = assets (compilation st) ∧
      infoLog (compilation r.2) = infoLog (compilation st) ∧
      generatedAssetNames (world r.2) = generatedAssetNames (world st)
  | inr (size, entries) =>
      let manifestString :=
        serializeManifest (compileSrc cfg) (options (compilation st)) entries in
      let logged :=
        if getLogger (compilation st)
        then infoLog (compilation st) ++ [(swDest cfg, length entries, size)]
        else infoLog (compilation st) in
      match truthy (getSourcemapAssetName (seenCompilation st) swAssetString (swDest cfg)) with
      | None =>
          r.1 = Returned tt ∧
          assets (compilation r.2)
          = <[swDest cfg := injectWithoutSourceMap swAssetString marker manifestString]>
              (assets (compilation st)) ∧
          infoLog (compilation r.2) = logged ∧
          generatedAssetNames (world r.2) = generatedAssetNames (world st)
      | Some n =>
          generatedAssetNames (world r.2) = {[n]} ∪ generatedAssetNames (world st) ∧
          match assets (compilation st) !! n with
          | None =>
              r.1 = Threw (TypeError "sourcemapAsset") ∧
              assets (compilation r.2) = assets (compilation st) ∧
              infoLog (compilation r.2) = infoLog (compilation st)
          | Some originalMap =>
              match replaceAndUpdateSourceMap (swDest cfg) originalMap swAssetString
                      manifestString marker with
              | inl e =>
                  r.1 = Threw e ∧
                  assets (compilation r.2) = assets (compilation st) ∧
                  infoLog (compilation r.2) = infoLog (compilation st)
              | inr (source, map) =>
                  r.1 = Returned tt ∧
                  assets (compilation r.2)
                  = <[swDest cfg := source]> (<[n := map]> (assets (compilation st))) ∧
                  infoLog (compilation r.2) = logged
              end
          end
      end
  end.
Proof.
  simpl. intros Hl Ha Hi Hcheck.
  destruct (addAssets_after_check st l swAssetString marker Hl Ha Hi Hcheck)
    as (st2 & Hs2 & Hc2 & Hr2 & Hm2 & ->).
  destruct (seenCompilation_fields st) as (Hsa & Hso & Hsg & Hsi & _ & Hsf).
  destruct (noteInvocation_run st) as (_ & _ & Hcfg & _).
  destruct (getManifestEntries _ _) as [e|[size entries]].
  - simpl. rewrite Hc2, Hsa, Hsi, Hsf. by split_and!.
  - assert (assets (compilation st2) !! swDest (config (self st)) = Some swAssetString)
      as Hold by (by rewrite Hc2, Hsa).
    pose proof (injectManifest_result (config (self st)) swAssetString marker size
                  entries st2 swAssetString Hold) as Hres.
    pose proof (injectManifest_effect getSourcemapAssetName replaceAndUpdateSourceMap
                  (config (self st)) swAssetString marker size entries st2)
      as (_ & _ & _ & _ & Hm & Hr).
    simpl in Hres, Hm, Hr. destruct Hres as (Hf & Hres).
    rewrite Hs2, Hcfg, Hc2, ?Hsa, ?Hso, ?Hsg, ?Hsi in Hres.
    rewrite Hc2, Hsf in Hf. rewrite Hc2, Hr2 in Hr. rewrite Hm2 in Hm.
    split_and!; [done | done |].
    destruct (truthy _) as [n|].
    + split; [done |].
      destruct (assets (compilation st) !! n) as [m|]; [| done].
      by destruct (replaceAndUpdateSourceMap _ _ _ _ _) as [e|[source map]].
    + destruct Hres as (? & ? & ?). by split_and!.
Qed.

(** *** Values that are missing *)

(** X1. Without an [exclude] array [addAssets] throws a [TypeError] and has
    touched neither the module state, nor an asset, nor the file
    dependencies.  Without the [swDest] asset, or without an injection
    point, it throws a [TypeError] too, no asset is changed and the
    manifest entry source is not called. *)
Theorem addAssets_missing_values st :
  let cfg := config (self st) in
  let r := addAssets st in
  match exclude cfg with
  | None =>
      r.1 = Threw (TypeError "config.exclude") ∧
      world r.2 = world st ∧
      assets (compilation r.2) = assets (compilation st) ∧
      fileDependencies (compilation r.2) = fileDependencies (compilation st)
  | Some l =>
      match assets (compilation st) !! swDest cfg, injectionPoint cfg with
      | None, _ =>
          r.1 = Threw (TypeError "swAsset") ∧
          assets (compilation r.2) = assets (compilation st) ∧
          newCalls (world st) (world r.2) = []
      | Some _, None =>
          r.1 = Threw (TypeError "config.injectionPoint") ∧
          assets (compilation r.2) = assets (compilation st) ∧
          newCalls (world st) (world r.2) = []
      | Some _, Some _ => True
      end
  end.
Proof.
  simpl. pose proof (addAssets_early st) as E. simpl in E.
  destruct (noteInvocation_run st) as (_ & Hw & _ & Hassets & _ & Hf & _).
  destruct (exclude (config (self st))) as [l|].
  - destruct (assets (compilation st) !! swDest (config (self st))) as [T|].
    + destruct (injectionPoint (config (self st))) as [ip|]; [done |].
      rewrite E. unfold_prepared. simpl. split_and!; [done | done |].
      apply newCalls_same. simpl. by rewrite Hw.
    + rewrite E. unfold_prepared. simpl. split_and!; [done | done |].
      apply newCalls_same. simpl. by rewrite Hw.
  - rewrite E. simpl. by split_and!.
Qed.

(** *** The replacement *)

(** X2. When the injection point is found once, the manifest entry source
    returns entries and the asset has no source map, [addAssets] returns;
    the [swDest] asset holds the result of [String.prototype.replace] on its
    old text, every other asset is as before, the registry is as before, the
    manifest entry source was called once, with the user's [exclude]
    conditions followed by the registry predicate, and one line is logged
    when the compilation has a logger. *)
Theorem addAssets_without_source_map st l swAssetString marker size entries :
  let cfg := config (self st) in
  exclude cfg = Some l →
  assets (compilation st) !! swDest cfg = Some swAssetString →
  injectionPoint cfg = Some marker →
  checkInjectionPoint marker swAssetString = Returned tt →
  getManifestEntries (seenCompilation st) (manifestCallOf st) = inr (size, entries) →
  truthy (getSourcemapAssetName (seenCompilation st) swAssetString (swDest cfg)) = None →
  let r := addAssets st in
  r.1 = Returned tt ∧
  assets (compilation r.2)
  = <[swDest cfg :=
        Text.replace swAssetString marker
          (serializeManifest (compileSrc cfg) (options (compilation st)) entries)]>
      (assets (compilation st)) ∧
  generatedAssetNames (world r.2) = generatedAssetNames (world st) ∧
  newCalls (world st) (world r.2) = [manifestCallOf st] ∧
  infoLog (compilation r.2)
  = (if getLogger (compilation st)
     then infoLog (compilation st) ++ [(swDest cfg, length entries, size)]
     else infoLog (compilation st)).
Proof.
  simpl. intros Hl Ha Hi Hcheck Hman Hmap.
  pose proof (addAssets_located_result st l swAssetString marker Hl Ha Hi Hcheck)
    as (_ & Hcalls & H).
  simpl in H. rewrite Hman, Hmap in H. destruct H as (? & ? & ? & ?).
  split_and!; try done. by apply newCalls_one.
Qed.

(** X3. When the injection point is found once, the manifest entry source
    returns entries and the asset has the source map asset [n], then [n]
    is registered and: without an asset of that name [addAssets] throws a
    [TypeError]; when [replaceAndUpdateSourceMap] rejects, [addAssets]
    throws what it rejected with; in both cases no asset is changed.
    Otherwise [addAssets] returns, the source map asset holds the new map
    and the [swDest] asset the new source, as [replaceAndUpdateSourceMap]
    returned them for the old text, the manifest string and the injection
    point. *)
Theorem addAssets_with_source_map st l swAssetString marker size entries n :
  let cfg := config (self st) in
  exclude cfg = Some l →
  assets (compilation st) !! swDest cfg = Some swAssetString →
  injectionPoint cfg = Some marker →
  checkInjectionPoint marker swAssetString = Returned tt →
  getManifestEntries (seenCompilation st) (manifestCallOf st) = inr (size, entries) →
  truthy (getSourcemapAssetName (seenCompilation st) swAssetString (swDest cfg)) = Some n →
  let r := addAssets st in
  let manifestString :=
    serializeManifest (compileSrc cfg) (options (compilation st)) entries in
  generatedAssetNames (world r.2) = {[n]} ∪ generatedAssetNames (world st) ∧
  match assets (compilation st) !! n with
  | None =>
      r.1 = Threw (TypeError "sourcemapAsset") ∧
      assets (compilation r.2) = assets (compilation st)
  | Some originalMap =>
      match replaceAndUpdateSourceMap (swDest cfg) originalMap swAssetString
              manifestString marker with
      | inl e => r.1 = Threw e ∧ assets (compilation r.2) = assets (compilation st)
      | inr (source, map) =>
          r.1 = Returned tt ∧
          assets (compilation r.2)
          = <[swDest cfg := source]> (<[n := map]> (assets (compilation st)))
      end
  end.
Proof.
  simpl. intros Hl Ha Hi Hcheck Hman Hmap.
  pose proof (addAssets_located_result st l swAssetString marker Hl Ha Hi Hcheck)
    as (_ & _ & H).
  simpl in H. rewrite Hman, Hmap in H. destruct H as (Hreg & H).
  split; [done |].
  destruct (assets (compilation st) !! n) as [m|]; [| by destruct H as (? & ? & _)].
  destruct (replaceAndUpdateSourceMap _ _ _ _ _) as [e|[source map]];
    by destruct H as (? & ? & _).
Qed.

(** X4. When the manifest entry source rejects, [addAssets] throws what it
    rejected with; no asset is changed and no name is registered. *)
Theorem manifest_source_rejects st l swAssetString marker e :
  let cfg := config (self st) in
  exclude cfg = Some l →
  assets (compilation st) !! swDest cfg = Some swAssetString →
  injectionPoint cfg = Some marker →
  checkInjectionPoint marker swAssetString = Returned tt →
  getManifestEntries (seenCompilation st) (manifestCallOf st) = inl e →
  let r := addAssets st in
  r.1 = Threw e ∧
  assets (compilation r.2) = assets (compilation st) ∧
  generatedAssetNames (world r.2) = generatedAssetNames (world st) ∧
  newCalls (world st) (world r.2) = [manifestCallOf st].
Proof.
  simpl. intros Hl Ha Hi Hcheck Hman.
  pose proof (addAssets_located_result st l swAssetString marker Hl Ha Hi Hcheck)
    as (_ & Hcalls & H).
  simpl in H. rewrite Hman in H. destruct H as (? & ? & _ & ?).
  split_and!; try done. by apply newCalls_one.
Qed.

(** *** What [addAssets] leaves alone *)

(** X6. [addAssets] puts the resolved [swSrc] among the file dependencies of
    the compilation as soon as it has an [exclude] array, also when it
    throws afterwards; it adds and removes no other dependency. *)
Theorem swSrc_is_watched st :
  let cfg := config (self st) in
  fileDependencies (compilation (addAssets st).2)
  = match exclude cfg with
    | Some _ => {[upath_resolve (swSrc cfg)]} ∪ fileDependencies (compilation st)
    | None => fileDependencies (compilation st)
    end.
Proof.
  simpl. pose proof (addAssets_early st) as E. simpl in E.
  destruct (noteInvocation_run st) as (_ & _ & Hc & _ & _ & Hf & _).
  destruct (exclude (config (self st))) as [l|] eqn:Hl; [| by rewrite E].
  destruct (assets (compilation st) !! swDest (config (self st))) as [T|] eqn:Ha;
    [| rewrite E; unfold_prepared; simpl; by rewrite Hf, Hc].
  destruct (injectionPoint (config (self st))) as [ip|] eqn:Hi;
    [| rewrite E; unfold_prepared; simpl; by rewrite Hf, Hc].
  destruct (checkInjectionPoint ip T) as [[]|e] eqn:Hcheck;
    [| rewrite E; unfold_prepared; simpl; by rewrite Hf, Hc].
  apply (addAssets_located_result st l T ip Hl Ha Hi Hcheck).
Qed.


(** *** The registry *)


(** *** The hooks *)

Lemma processAssetsHook_state st :
  world (processAssetsHook st).2 = world (addAssets st).2 ∧
  self (processAssetsHook st).2 = self (addAssets st).2 ∧
  assets (compilation (processAssetsHook st).2) = assets (compilation (addAssets st).2) ∧
  warnings (compilation (processAssetsHook st).2)
  = warnings (compilation (addAssets st).2).
Proof.
  unfold_hooks. unfold_monad.
  by destruct (addAssets st) as [[[]|e] st'].
Qed.

(** X9. The functions tapped into the hooks never reject.  What
    [handleMake] or [addAssets] throws is appended to the errors of the
    compilation, and the errors change in no other way than the method
    itself changed them; [addAssets] itself never touches them. *)
Theorem hooks_never_reject parentCompiler st :
  (makeHook parentCompiler st).1 = Returned tt ∧
  errors (compilation (makeHook parentCompiler st).2)
  = errors (compilation (handleMake parentCompiler st).2)
    ++ thrown (handleMake parentCompiler st).1 ∧
  (processAssetsHook st).1 = Returned tt ∧
  errors (compilation (processAssetsHook st).2)
  = errors (compilation st) ++ thrown (addAssets st).1.
Proof.
  pose proof (addAssets_effect getManifestEntries getSourcemapAssetName
                replaceAndUpdateSourceMap upath_resolve st) as (_ & _ & He & _).
  simpl in He. unfold_hooks. unfold_monad.
  destruct (handleMake parentCompiler st) as [[[]|e] st'];
    destruct (addAssets st) as [[[]|e'] st'']; simpl in *;
    rewrite ?app_nil_r, ?He; done.
Qed.

(** X11. Over the rebuilds of watch mode the array that
    [this.config.exclude] refers to gets one more registry predicate with
    every run of the hook, whether the run fails or not, while the
    properties of [this.config] stay as they are. *)
Theorem exclude_grows_with_rebuilds cs st l :
  exclude (config (self st)) = Some l →
  let st' := rebuilds processAssetsHook cs st in
  config (self st') = config (self st) ∧
  arrayContent (world st') (Some l)
  = arrayContent (world st) (Some l) ++ replicate (length cs) isGenerated.
Proof.
  simpl. revert st. induction cs as [|c cs IH]; intros st Hl; simpl.
  - by rewrite app_nil_r.
  - set (stc := {| world := world st; self := self st; compilation := c |}).
    destruct (processAssetsHook_state stc) as (Hw & Hs & _).
    pose proof (addAssets_effect getManifestEntries getSourcemapAssetName
                  replaceAndUpdateSourceMap upath_resolve stc)
      as (Hcfg & _ & _ & _ & _ & _ & Harr).
    simpl in Hcfg, Harr. rewrite Hl in Harr.
    destruct (IH (processAssetsHook stc).2) as (IHc & IHa).
    { by rewrite Hs, Hcfg. }
    rewrite IHc, IHa, Hs, Hcfg. split; [done |].
    unfold arrayContent. simpl. rewrite Hw, Harr, lookup_insert_eq. simpl.
    by rewrite <- app_assoc.
Qed.

(** *** [handleMake] *)


(** X13. With [compileSrc] set in the valid configuration, the child
    compiler writes to the resolved [swDest], the name that is registered
    and stored in [this.config].  When [runAsChild] reports an error
    [handleMake] throws it and the compilation is as before; otherwise
    [handleMake] returns, the assets that the child emitted are in the
    compilation, its warnings and errors are appended, and no other warning
    is added. *)
Theorem child_compilation_in_handleMake parentCompiler st validated heap :
  validate (config (self st)) (arrays (world st)) = inr (validated, heap) →
  compileSrc validated = true →
  let dest := relativeToOutputPath (compilation st) (swDest validated) in
  let child := makeChildCompiler (with_swDest dest validated) parentCompiler in
  let r := handleMake parentCompiler st in
  childFilename child = dest ∧
  config (self r.2) = with_swDest dest validated ∧
  dest ∈ generatedAssetNames (world r.2) ∧
  match runAsChild child (compilation st) with
  | ChildFailed e => r.1 = Threw e ∧ compilation r.2 = compilation st
  | ChildDone emitted childCompilation =>
      r.1 = Returned tt ∧
      assets (compilation r.2) = emitted ∪ assets (compilation st) ∧
      warnings (compilation r.2)
      = warnings (compilation st) ++ default [] (childWarnings <$> childCompilation) ∧
      errors (compilation r.2)
      = errors (compilation st) ++ default [] (childErrors <$> childCompilation)
  end.
Proof.
  intros Hvalid Hcompile. unfold_handleMake.
  destruct st as [w i c]. unfold_monad. simpl in *.
  rewrite Hvalid. simpl. rewrite Hcompile. simpl.
  split_and!; [done | | |].
  - by destruct (runAsChild _ _).
  - destruct (runAsChild _ _); simpl; apply elem_of_union_l, elem_of_singleton; done.
  - by destruct (runAsChild _ _).
Qed.

(** X14. With [compileSrc] unset and no file at [swSrc], [handleMake]
    throws after it has registered the resolved [swDest]; no asset is
    emitted and no warning is added, whatever plugins are configured. *)
Theorem missing_source_file parentCompiler st validated heap :
  validate (config (self st)) (arrays (world st)) = inr (validated, heap) →
  compileSrc validated = false →
  inputFileSystem parentCompiler !! swSrc validated = None →
  let dest := relativeToOutputPath (compilation st) (swDest validated) in
  let r := handleMake parentCompiler st in
  (∃ e, r.1 = Threw e) ∧
  compilation r.2 = compilation st ∧
  generatedAssetNames (world r.2) = {[dest]} ∪ generatedAssetNames (world st) ∧
  config (self r.2) = with_swDest dest validated.
Proof.
  intros Hvalid Hcopy Hfile. unfold_handleMake.
  destruct st as [w i c]. unfold_monad. simpl in *.
  rewrite Hvalid. simpl. rewrite Hcopy. simpl. rewrite Hfile. simpl.
  split_and!; eauto.
Qed.

(** *** How far [addAssets] gets *)

Local Abbreviation step :=
  (step validate relativeToOutputPath runAsChild webpack4 getManifestEntries
     getSourcemapAssetName replaceAndUpdateSourceMap upath_resolve).

(** A check that throws ends [addAssets] there and then. *)
Lemma addAssets_stopped st l swAssetString marker e :
  let cfg := config (self st) in
  exclude cfg = Some l →
  assets (compilation st) !! swDest cfg = Some swAssetString →
  injectionPoint cfg = Some marker →
  checkInjectionPoint marker swAssetString = Threw e →
  let r := addAssets st in
  r.1 = Threw e ∧
  newCalls (world st) (world r.2) = [] ∧
  assets (compilation r.2) = assets (compilation st) ∧
  generatedAssetNames (world r.2) = generatedAssetNames (world st).
Proof.
  simpl. intros Hl Ha Hi Hcheck.
  pose proof (addAssets_early st) as E. simpl in E.
  rewrite Hl, Ha, Hi, Hcheck in E. rewrite E.
  destruct (noteInvocation_run st) as (_ & Hw & _ & Hassets & _).
  unfold_prepared. simpl. rewrite Hw. split_and!; try done.
  by apply newCalls_same.
Qed.

(** The calls that one run of [addAssets] makes to the manifest entry
    source: one when it gets past the check, none otherwise. *)
Lemma addAssets_calls st :
  let r := addAssets st in
  newCalls (world st) (world r.2)
  = (if passesCheck st then [manifestCallOf st] else []) ∧
  (passesCheck st = false →
   (∃ e, r.1 = Threw e) ∧
   assets (compilation r.2) = assets (compilation st) ∧
   generatedAssetNames (world r.2) = generatedAssetNames (world st)).
Proof.
  simpl. unfold passesCheck.
  pose proof (addAssets_early st) as E. simpl in E.
  destruct (noteInvocation_run st) as (_ & Hw & _ & Hassets & _).
  destruct (exclude (config (self st))) as [l|] eqn:Hl.
  2: { rewrite E. simpl. rewrite Hw, Hassets.
       split; [by apply newCalls_same | eauto]. }
  destruct (assets (compilation st) !! swDest (config (self st))) as [T|] eqn:Ha.
  2: { rewrite E. unfold_prepared. simpl. rewrite Hw, Hassets.
       split; [by apply newCalls_same | eauto]. }
  destruct (injectionPoint (config (self st))) as [ip|] eqn:Hi.
  2: { rewrite E. unfold_prepared. simpl. rewrite Hw, Hassets.
       split; [by apply newCalls_same | eauto]. }
  destruct (checkInjectionPoint ip T) as [[]|e] eqn:Hcheck.
  - clear E.
    pose proof (addAssets_located_result st l T ip Hl Ha Hi Hcheck) as (_ & Hcalls & _).
    split; [by apply newCalls_one | done].
  - destruct (addAssets_stopped st l T ip e Hl Ha Hi Hcheck) as (? & ? & ? & ?).
    split; [done | eauto].
Qed.

Lemma manifestCallOf_predicate N st :
  N ∈ generatedAssetNames (world st) → predicateFor N (manifestCallOf st).
Proof.
  intros HN. unfold predicateFor, manifestCallOf. simpl. split_and!.
  - apply last_snoc.
  - done.
  - intros registry Hsub. apply bool_decide_eq_true. by apply Hsub.
  - done.
Qed.

Lemma addAssets_calls_predicate N st :
  N ∈ generatedAssetNames (world st) →
  Forall (predicateFor N) (newCalls (world st) (world (addAssets st).2)).
Proof.
  intros HN. destruct (addAssets_calls st) as [-> _].
  destruct (passesCheck st); [| done].
  apply Forall_singleton. by apply manifestCallOf_predicate.
Qed.

(** C2, amended.  The injection point is searched for as literal text.
    When it starts nowhere in the text of the [swDest] asset, [addAssets]
    throws the "Can't find" error, whose message contains it; when the text
    has two occurrences that do not overlap, [addAssets] throws the
    "Multiple instances" error, which says to include it only once; in
    both cases the manifest entry source is not called and no asset is
    changed, and in no other case is either error thrown before that call.
    In the one case left, an injection point that occurs and whose
    occurrences all overlap one another, [addAssets] goes on to ask for the
    manifest entries.  A text in which the injection point starts at
    exactly one index is such a case, and a text with two occurrences that
    do not overlap has it start at two indices or more. *)
Theorem injection_point_check st l swAssetString marker :
  let cfg := config (self st) in
  exclude cfg = Some l →
  assets (compilation st) !! swDest cfg = Some swAssetString →
  injectionPoint cfg = Some marker →
  let r := addAssets st in
  let calls := newCalls (world st) (world r.2) in
  let starts := startIndices marker swAssetString in
  RegExp.literalOfPattern (RegExp.escapeRegExp marker) = Some marker ∧
  (noOccurrence marker swAssetString
   ↔ r.1 = Threw (Error (notFoundMessage marker)) ∧ calls = []) ∧
  (twoDisjointOccurrences marker swAssetString
   ↔ r.1 = Threw (Error (multipleMessage marker)) ∧ calls = []) ∧
  (oneDisjointOccurrence marker swAssetString ↔ calls = [manifestCallOf st]) ∧
  (calls = [] → assets (compilation r.2) = assets (compilation st)) ∧
  (starts = [] ↔ noOccurrence marker swAssetString) ∧
  (length starts = 1 → oneDisjointOccurrence marker swAssetString) ∧
  (twoDisjointOccurrences marker swAssetString → 2 ≤ length starts) ∧
  (∃ a b, notFoundMessage marker = a ++ marker ++ b) ∧
  (∃ a b c, multipleMessage marker
            = a ++ marker ++ b ++ str "Include it only once." ++ c).
Proof.
  simpl. intros Hl Ha Hi.
  destruct (checkInjectionPoint_occurrences marker swAssetString)
    as (Hliteral & Hnone & Htwo & Hone & Hfound & Hmultiple).
  assert (noOccurrence marker swAssetString ↔ startIndices marker swAssetString = [])
    as Hstarts by (by rewrite startIndices_nil).
  destruct (checkInjectionPoint marker swAssetString) as [[]|e] eqn:Hcheck.
  - pose proof (addAssets_located_result st l swAssetString marker Hl Ha Hi Hcheck)
      as (_ & Hcalls & _).
    apply newCalls_one in Hcalls. rewrite Hcalls.
    split_and!; try done.
    + split; [| by intros [_ ?]]. intros H. by apply Hnone in H.
    + split; [| by intros [_ ?]]. intros H. by apply Htwo in H.
    + split; [done |]. intros _. by apply Hone.
    + by apply startIndices_one.
    + by apply startIndices_two.
  - destruct (addAssets_stopped st l swAssetString marker e Hl Ha Hi Hcheck)
      as (Hr & Hcalls & Hassets & _).
    rewrite Hr, Hcalls.
    split_and!; try done.
    + rewrite <- Hnone. split; [by intros -> | by intros [-> _]].
    + rewrite <- Htwo. split; [by intros -> | by intros [-> _]].
    + rewrite <- Hone. split; done.
    + by apply startIndices_one.
    + by apply startIndices_two.
Qed.



End Coverage.

(** *** The check on an empty injection point *)

Lemma matchesFrom_empty s : length (Text.matchesFrom [] 0 s) = S (length s).
Proof. induction s as [|c s IH]; simpl; [done | by rewrite IH]. Qed.

(** X10. An empty injection point is found at every index: the check
    passes on the empty text only, and on every other text it throws the
    "Multiple instances" error. *)
Theorem empty_injection_point (swAssetString : text) :
  checkInjectionPoint [] swAssetString
  = match swAssetString with
    | [] => Returned tt
    | _ :: _ => Threw (Error (multipleMessage []))
    end.
Proof.
  rewrite checkInjectionPoint_matches.
  pose proof (matchesFrom_empty swAssetString) as Hlen.
  destruct (Text.matchesFrom [] 0 swAssetString) as [|m [|m' ms]];
    destruct swAssetString; simpl in Hlen; (done || lia).
Qed.

(** *** [propagateWebpackConfig] *)

(** X15. Once [propagateWebpackConfig] has run, running it again, for any
    compiler, changes nothing: the [mode] and the [swDest] of the first run
    stay.  A [swDest] or [mode] property of the user's configuration is
    kept as it is, [undefined] included; without a [swDest] property the
    destination is the name part of [swSrc] followed by [.js]; and the
    result has a [swDest] string unless the user set it to [undefined]. *)
Theorem propagate_once (parseName : string → string) (mode1 mode2 : option string)
    (c c1 : UserConfig) :
  propagateWebpackConfig parseName mode1 c = inr c1 →
  propagateWebpackConfig parseName mode2 c1 = inr c1 ∧
  (∀ d, userSwDest c = Some d → userSwDest c1 = Some d) ∧
  (∀ m, userMode c = Some m → userMode c1 = Some m) ∧
  (userSwDest c = None →
   ∃ src, userSwSrc c = Some src ∧
          userSwDest c1 = Some (Some (parseName src +:+ ".js")%string)) ∧
  (userMode c = None → userMode c1 = Some mode1) ∧
  (userSwDest c ≠ Some None → is_Some (hookConfig c1)).
Proof.
  unfold propagateWebpackConfig. destruct c as [src dest m ip cs ex pl]. simpl.
  destruct src as [src|]; [| done]. intros [= <-]. simpl. split_and!.
  - done.
  - by intros d ->.
  - by intros v ->.
  - intros ->. eauto.
  - by intros ->.
  - intros Hd. unfold hookConfig. simpl.
    destruct dest as [[d|]|]; simpl; eauto. done.
Qed.

(** ** The further properties on the concrete build *)

Lemma addAssets_without_source_map_witness :
  let st := Cases.withoutMap in
  let entries := [Build.entryFor "sw.js"; Build.entryFor "app.js"] in
  let r := Build.addAssets None st in
  r.1 = Returned tt ∧
  assets (compilation r.2)
  = <["sw.js"%string :=
        Text.replace Runs.swSource Runs.marker (serializeManifest true None entries)]>
      (assets (compilation st)) ∧
  generatedAssetNames (world r.2) = generatedAssetNames (world st) ∧
  newCalls (world st) (world r.2) = [manifestCallOf st] ∧
  infoLog (compilation r.2) = [].
Proof.
  exact (addAssets_without_source_map Build.manifestOf (Build.sourcemapOf None)
           Build.replaceWithMap Build.resolve Cases.withoutMap 1%positive
           Runs.swSource Runs.marker 2
           [Build.entryFor "sw.js"; Build.entryFor "app.js"]
           ltac:(reflexivity) ltac:(vm_compute; reflexivity) ltac:(reflexivity)
           ltac:(vm_compute; reflexivity) ltac:(vm_compute; reflexivity)
           ltac:(reflexivity)).
Defined.

Lemma addAssets_with_source_map_witness :
  let st := Cases.withMap in
  let entries := [Build.entryFor "sw.js.map"; Build.entryFor "sw.js"] in
  let manifestString := serializeManifest true None entries in
  let r := Build.addAssets (Some "sw.js.map"%string) st in
  generatedAssetNames (world r.2) = {["sw.js.map"%string]} ∪ generatedAssetNames (world st) ∧
  r.1 = Returned tt ∧
  assets (compilation r.2)
  = <["sw.js"%string := str "precache(" ++ manifestString ++ str ");"]>
      (<["sw.js.map"%string := str "{}"]> (assets (compilation st))).
Proof.
  exact (addAssets_with_source_map Build.manifestOf
           (Build.sourcemapOf (Some "sw.js.map"%string))
           Build.replaceWithMap Build.resolve Cases.withMap 1%positive
           Runs.swSource Runs.marker 2
           [Build.entryFor "sw.js.map"; Build.entryFor "sw.js"] "sw.js.map"
           ltac:(reflexivity) ltac:(vm_compute; reflexivity) ltac:(reflexivity)
           ltac:(vm_compute; reflexivity) ltac:(vm_compute; reflexivity)
           ltac:(reflexivity)).
Defined.

Lemma manifest_source_rejects_witness :
  let st := Cases.withoutMap in
  let r := addAssets Cases.failingManifest (Build.sourcemapOf None)
             Build.replaceWithMap Build.resolve st in
  r.1 = Threw (Error (str "manifestTransforms failed")) ∧
  assets (compilation r.2) = assets (compilation st) ∧
  generatedAssetNames (world r.2) = generatedAssetNames (world st) ∧
  newCalls (world st) (world r.2) = [manifestCallOf st].
Proof.
  exact (manifest_source_rejects Cases.failingManifest (Build.sourcemapOf None)
           Build.replaceWithMap Build.resolve Cases.withoutMap 1%positive
           Runs.swSource Runs.marker (Error (str "manifestTransforms failed"))
           ltac:(reflexivity) ltac:(vm_compute; reflexivity) ltac:(reflexivity)
           ltac:(vm_compute; reflexivity) ltac:(reflexivity)).
Defined.

Lemma addAssets_failed_check_witness :
  let st := Build.start Build.config0 {["sw.js"%string := str "precache([]);"]} in
  let r := Build.addAssets None st in
  r.1 = Threw (Error (notFoundMessage Runs.marker)) ∧
  assets (compilation r.2) = assets (compilation st) ∧
  newCalls (world st) (world r.2) = [].
Proof.
  exact (addAssets_failed_check Build.manifestOf (Build.sourcemapOf None)
           Build.replaceWithMap Build.resolve
           (Build.start Build.config0 {["sw.js"%string := str "precache([]);"]})
           1%positive (str "precache([]);") Runs.marker
           (Error (notFoundMessage Runs.marker))
           ltac:(reflexivity) ltac:(vm_compute; reflexivity) ltac:(reflexivity)
           ltac:(vm_compute; reflexivity)).
Defined.

Lemma exclude_grows_with_rebuilds_witness :
  let st := Cases.withoutMap in
  let hook := processAssetsHook Build.manifestOf (Build.sourcemapOf None)
                Build.replaceWithMap Build.resolve in
  let st' := rebuilds hook [compilation st; compilation st] st in
  config (self st') = config (self st) ∧
  arrayContent (world st') (Some 1%positive)
  = arrayContent (world st) (Some 1%positive) ++ replicate 2 isGenerated.
Proof.
  exact (exclude_grows_with_rebuilds Build.manifestOf (Build.sourcemapOf None)
           Build.replaceWithMap Build.resolve
           [compilation Cases.withoutMap; compilation Cases.withoutMap]
           Cases.withoutMap 1%positive ltac:(reflexivity)).
Defined.


Lemma child_compilation_in_handleMake_witness :
  let st := Build.start Build.config0 {["app.js"%string := str "x"]} in
  let pc := Build.compiler0 Runs.swSource in
  let r := Build.handleMake Build.report0 pc st in
  childFilename (makeChildCompiler (with_swDest "sw.js" Build.config0) pc) = "sw.js"%string ∧
  config (self r.2) = with_swDest "sw.js" Build.config0 ∧
  "sw.js"%string ∈ generatedAssetNames (world r.2) ∧
  r.1 = Returned tt ∧
  assets (compilation r.2) = {["sw.js"%string := Runs.swSource]} ∪ assets (compilation st) ∧
  warnings (compilation r.2) = warnings (compilation st) ++ [] ∧
  errors (compilation r.2) = errors (compilation st) ++ [].
Proof.
  exact (child_compilation_in_handleMake Build.validate Build.relative
           (Build.runChild Build.report0) false (Build.compiler0 Runs.swSource)
           (Build.start Build.config0 {["app.js"%string := str "x"]})
           Build.config0 (arrays Build.world0)
           ltac:(reflexivity) ltac:(reflexivity)).
Defined.

Lemma missing_source_file_witness :
  let st := Build.start Runs.copyConfig ∅ in
  let pc := {| context := "/project"; outputPath := None; inputFileSystem := ∅ |} in
  let r := Build.handleMake Build.report0 pc st in
  (∃ e, r.1 = Threw e) ∧
  compilation r.2 = compilation st ∧
  generatedAssetNames (world r.2) = {["sw.js"%string]} ∪ generatedAssetNames (world st) ∧
  config (self r.2) = with_swDest "sw.js" Runs.copyConfig.
Proof.
  exact (missing_source_file Build.validate Build.relative
           (Build.runChild Build.report0) false
           {| context := "/project"; outputPath := None; inputFileSystem := ∅ |}
           (Build.start Runs.copyConfig ∅) Runs.copyConfig (arrays Build.world0)
           ltac:(reflexivity) ltac:(reflexivity) ltac:(reflexivity)).
Defined.

Lemma propagate_once_witness :
  let c := Cases.userConfig0 in
  let c1 :=
    {| userSwSrc := Some "src/sw.ts"%string; userSwDest := Some (Some "sw.js"%string);
       userMode := Some (Some "production"%string);
       userInjectionPoint := userInjectionPoint c; userCompileSrc := true;
       userExclude := Some 1%positive; userWebpackCompilationPlugins := None |} in
  propagateWebpackConfig Cases.parseName (Some "development"%string) c1 = inr c1 ∧
  (∀ d, userSwDest c = Some d → userSwDest c1 = Some d) ∧
  (∀ m, userMode c = Some m → userMode c1 = Some m) ∧
  (userSwDest c = None →
   ∃ src, userSwSrc c = Some src ∧
          userSwDest c1 = Some (Some (Cases.parseName src +:+ ".js")%string)) ∧
  (userMode c = None → userMode c1 = Some (Some "production"%string)) ∧
  (userSwDest c ≠ Some None → is_Some (hookConfig c1)).
Proof.
  exact (propagate_once Cases.parseName (Some "production"%string)
           (Some "development"%string) Cases.userConfig0 _ ltac:(reflexivity)).
Defined.

Lemma inject_plain_witness :
  let result := injectWithoutSourceMap Runs.swSource Runs.marker (str "[]") in
  result = take 9 Runs.swSource ++ str "[]" ++ drop (9 + length Runs.marker) Runs.swSource ∧
  Text.occursAt (str "[]") result 9 ∧
  length result + length Runs.marker = length Runs.swSource + length (str "[]").
Proof.
  exact (inject_plain Runs.swSource Runs.marker (str "[]") 9
           ltac:(reflexivity)
           ltac:(vm_compute; intros H;
                 repeat (apply elem_of_cons in H as [H|H]; [discriminate |]);
                 by apply elem_of_nil in H)).
Defined.

Lemma one_warning_per_compilation_witness :
  calledTwiceWarnings (warnings (compilation Runs.made)) ≤ 1 ∧
  calledTwiceWarnings
    (warnings (compilation
       (repeatedly 3
          (processAssetsHook Build.manifestOf (Build.sourcemapOf None)
             Build.replaceWithMap Build.resolve) Runs.made))) ≤ 1.
Proof.
  assert (calledTwiceWarnings (warnings (compilation Runs.made)) ≤ 1) as H
    by (vm_compute; lia).
  split; [exact H |].
  exact (one_warning_per_compilation Build.manifestOf (Build.sourcemapOf None)
           Build.replaceWithMap Build.resolve 3 Runs.made H).
Defined.

(** ** The check, the registry and the predicate on the concrete build *)

Lemma injection_point_check_witness :
  let st := Cases.withoutMap in
  let marker := Runs.marker in
  let swAssetString := Runs.swSource in
  let r := Build.addAssets None st in
  let calls := newCalls (world st) (world r.2) in
  let starts := startIndices marker swAssetString in
  RegExp.literalOfPattern (RegExp.escapeRegExp marker) = Some marker ∧
  (noOccurrence marker swAssetString
   ↔ r.1 = Threw (Error (notFoundMessage marker)) ∧ calls = []) ∧
  (twoDisjointOccurrences marker swAssetString
   ↔ r.1 = Threw (Error (multipleMessage marker)) ∧ calls = []) ∧
  (oneDisjointOccurrence marker swAssetString ↔ calls = [manifestCallOf st]) ∧
  (calls = [] → assets (compilation r.2) = assets (compilation st)) ∧
  (starts = [] ↔ noOccurrence marker swAssetString) ∧
  (length starts = 1 → oneDisjointOccurrence marker swAssetString) ∧
  (twoDisjointOccurrences marker swAssetString → 2 ≤ length starts) ∧
  (∃ a b, notFoundMessage marker = a ++ marker ++ b) ∧
  (∃ a b c, multipleMessage marker
            = a ++ marker ++ b ++ str "Include it only once." ++ c).
Proof.
  exact (injection_point_check Build.manifestOf (Build.sourcemapOf None)
           Build.replaceWithMap Build.resolve
           Cases.withoutMap 1%positive Runs.swSource Runs.marker
           eq_refl eq_refl eq_refl).
Defined.

(** C2, as it is stated, fails for occurrences that overlap.  In
    [x(__WB__WB__)] the injection point [__WB__] occurs twice, at the
    indices 2 and 6; the search goes on at index 8, after the first match,
    and finds no second one.  The check passes, the manifest entry source is
    called, and the first occurrence is replaced. *)
Lemma overlapping_occurrences_pass :
  let marker := str "__WB__" in
  let swAssetString := str "x(__WB__WB__)" in
  let st := Cases.overlapping in
  let r := Build.addAssets None st in
  assets (compilation st) !! "sw.js"%string = Some swAssetString ∧
  startIndices marker swAssetString = [2; 6] ∧
  checkInjectionPoint marker swAssetString = Returned tt ∧
  r.1 = Returned tt ∧
  newCalls (world st) (world r.2) = [manifestCallOf st] ∧
  assets (compilation r.2) !! "sw.js"%string
  = Some (str "x([{'revision':null,'url':'sw.js'}]WB__)").
Proof. vm_compute. by split_and!. Qed.




